(** * Lumi front end: the document synchronisation services

    A shallow embedding of [ApiService] (api.service.ts: the registry of
    WebSockets kept per paper and version, the handlers installed on each
    socket, the REST helpers) and of [HomeService] (home.service.ts: the
    metadata map filled from the local paper history), followed by the
    properties of the synchronisation layer that were checked against them.

    Conventions of the model.
    - A JavaScript value is a [JsValue]; numbers are IEEE doubles ([float]).
    - A function that can throw lives in the monad [Js]: it maps a [World]
      to a completion (a value or a thrown value) and the next [World];
      state changes made before a throw are kept, as in JavaScript.
    - The console and the consumer callbacks are observed through the list
      [output] of the [World], oldest entry first.
    - Time stamps ([new Date().toISOString()]) are left out of the logged
      records; nothing in the code reads them back. *)

From Stdlib Require Import Floats.PrimFloat Uint63.
From stdpp Require Import gmap strings list fin_maps pretty.

Set Warnings "-register-all,-clear-no-such-hyp".
Set Default Proof Using "Type".

Open Scope string_scope.

(** ** JavaScript values *)

Inductive JsValue : Type :=
| JUndefined
| JNull
| JBool (b : bool)
| JNum (x : float)
| JStr (s : string)
| JArr (items : list JsValue)
| JObj (props : list (string * JsValue))
| JError (name : string) (message : JsValue).

(** [JObj] lists the own properties of an object in property order, each
    key once.  [JError name m] is an [Error] object of class [name] built
    from [m] (the constructor turns [m] into the message string). *)

(** The result of evaluating an expression or a call. *)
Inductive Completion (A : Type) : Type :=
| Normal (a : A)
| Throws (e : JsValue).
Arguments Normal {A} a.
Arguments Throws {A} e.

Module Js.

(** ToBoolean. *)
Definition truthy (v : JsValue) : bool :=
  match v with
  | JUndefined | JNull => false
  | JBool b => b
  | JNum x => negb (PrimFloat.eqb x 0%float || PrimFloat.is_nan x)
  | JStr s => negb (String.eqb s EmptyString)
  | JArr _ | JObj _ | JError _ _ => true
  end.

(** [a || b]. *)
Definition or (a b : JsValue) : JsValue := if truthy a then a else b.

Fixpoint assoc (k : string) (props : list (string * JsValue)) : option JsValue :=
  match props with
  | [] => None
  | (k', v) :: rest => if String.eqb k k' then Some v else assoc k rest
  end.

(** [v.k], for the property names the services read ([paper_id],
    [version], [type], [data], [loading_status], [loadingStatus],
    [loading_error], [loadingError], [detail], [id]): none of them is
    [length], an index, or inherited from a prototype, so only an object
    can have one.  Reading a property of [null] or [undefined] throws. *)
Definition get (v : JsValue) (k : string) : Completion JsValue :=
  match v with
  | JUndefined | JNull => Throws (JError "TypeError" (JStr k))
  | JObj props => Normal (default JUndefined (assoc k props))
  | JBool _ | JNum _ | JStr _ | JArr _ | JError _ _ => Normal JUndefined
  end.

(** [v?.k]. *)
Definition opt_get (v : JsValue) (k : string) : JsValue :=
  match get v k with
  | Normal x => x
  | Throws _ => JUndefined
  end.

(** [Object.keys(v)] for a [v] that is neither [null] nor [undefined]
    (the only way the services call it).  A string has one index key per
    code unit; [String.length] counts them for ASCII text. *)
Definition keys (v : JsValue) : JsValue :=
  let indices n := JArr ((λ i : nat, JStr (pretty i)) <$> seq 0 n) in
  match v with
  | JObj props => JArr ((λ kv, JStr kv.1) <$> props)
  | JArr items => indices (length items)
  | JStr s => indices (String.length s)
  | _ => JArr []
  end.

End Js.

(** ** What the outside world observes *)

(** A consumer callback: its name, and the arguments on which it throws
    (the value thrown is not modelled beyond its class). *)
Record Callback : Type := mkCallback {
  cb_name : string;
  cb_throws : JsValue → bool;
}.

Inductive Output : Type :=
| console_log (text : string) (fields : list (string * JsValue))
| console_error (text : string) (fields : list (string * JsValue))
| onUpdate_call (cb : Callback) (data : JsValue)
| onError_call (cb : Callback) (error : JsValue).

(** ** WebSockets *)

Inductive ReadyState : Type := CONNECTING | OPEN | CLOSING | CLOSED.

Global Instance ReadyState_eq_dec : EqDecision ReadyState.
Proof. solve_decision. Defined.

(** The variables captured by the handlers that one call of
    [connectDocumentSocket] installs on its socket. *)
Record Closure : Type := mkClosure {
  arxivId : string;
  version : string;
  wsKey : string;
  onUpdate : Callback;
  onError : option Callback;
}.

Record WebSocket : Type := mkWebSocket {
  url : string;
  readyState : ReadyState;
  handlers : Closure;
}.

(** [ApiService]: its two URLs and the map [websockets], which holds
    references to sockets; a reference is an index into the [sockets] of
    the [World]. *)
Record ApiService : Type := mkApiService {
  baseUrl : string;
  wsUrl : string;
  websockets : gmap string nat;
}.

Record World : Type := mkWorld {
  api : ApiService;
  sockets : list WebSocket;
  output : list Output;
}.

(** The constructor reads the environment once. *)
Record Environment : Type := mkEnvironment {
  NODE_ENV : string;
  location_origin : string;
  location_host : string;
}.

Definition ApiService_new (env : Environment) : ApiService * list Output :=
  let this :=
    if String.eqb (NODE_ENV env) "development"
    then mkApiService "http://localhost:8001" "ws://localhost:8001" ∅
    else mkApiService (location_origin env) ("ws://" ++ location_host env) ∅ in
  (this,
   [console_log "[API] ApiService initialized:"
      [("baseUrl", JStr (baseUrl this)); ("wsUrl", JStr (wsUrl this));
       ("environment", JStr (NODE_ENV env))]]).

Definition boot (env : Environment) : World :=
  let '(this, out) := ApiService_new env in mkWorld this [] out.

(** ** The monad of the services *)

Definition Js (A : Type) : Type := World → Completion A * World.

Definition ret {A} (a : A) : Js A := λ w, (Normal a, w).
Definition throw {A} (e : JsValue) : Js A := λ w, (Throws e, w).
Definition bind {A B} (m : Js A) (k : A → Js B) : Js B :=
  λ w, match m w with
       | (Normal a, w') => k a w'
       | (Throws e, w') => (Throws e, w')
       end.
Definition lift {A} (c : Completion A) : Js A := λ w, (c, w).
Definition try_catch {A} (body : Js A) (handler : JsValue → Js A) : Js A :=
  λ w, match body w with
       | (Normal a, w') => (Normal a, w')
       | (Throws e, w') => handler e w'
       end.

Declare Scope js_scope.
Delimit Scope js_scope with js.
Notation "x <- m ;; k" := (bind m (λ x, k))
  (at level 100, m at next level, right associativity) : js_scope.
Notation "m ;; k" := (bind m (λ _, k))
  (at level 100, right associativity) : js_scope.

Definition emit (o : Output) : Js unit :=
  λ w, (Normal (), mkWorld (api w) (sockets w) (output w ++ [o])).

Definition set_websockets (f : gmap string nat → gmap string nat) : Js unit :=
  λ w, (Normal (),
        mkWorld (mkApiService (baseUrl (api w)) (wsUrl (api w)) (f (websockets (api w))))
                (sockets w) (output w)).

Definition set_sockets (f : list WebSocket → list WebSocket) : Js unit :=
  λ w, (Normal (), mkWorld (api w) (f (sockets w)) (output w)).

Definition this_websockets : Js (gmap string nat) := λ w, (Normal (websockets (api w)), w).
Definition this_wsUrl : Js string := λ w, (Normal (wsUrl (api w)), w).
Definition this_baseUrl : Js string := λ w, (Normal (baseUrl (api w)), w).

(** Calling a consumer callback: the call is observed, then the callback
    returns or throws. *)
Definition call_onUpdate (cb : Callback) (data : JsValue) : Js unit :=
  (emit (onUpdate_call cb data) ;;
   if cb_throws cb data then throw (JError "Error" (JStr (cb_name cb))) else ret ())%js.

Definition call_onError (cb : Callback) (error : JsValue) : Js unit :=
  (emit (onError_call cb error) ;;
   if cb_throws cb error then throw (JError "Error" (JStr (cb_name cb))) else ret ())%js.

(** ** The WebSocket interface of the browser *)

(** [ws.close()]: a socket that is connecting or open starts closing; the
    browser reports the end of the connection later, by a close event.  On
    a socket that is closing or closed the call does nothing. *)
Definition close_state (r : ReadyState) : ReadyState :=
  match r with
  | CONNECTING | OPEN => CLOSING
  | CLOSING | CLOSED => r
  end.

Definition with_readyState (f : ReadyState → ReadyState) (s : WebSocket) : WebSocket :=
  mkWebSocket (url s) (f (readyState s)) (handlers s).

Definition WebSocket_close (ws : nat) : Js unit :=
  set_sockets (alter (with_readyState close_state) ws).

(** [new WebSocket(url)] followed by the assignment of the four handlers,
    which capture [c].  No event is delivered in between: the caller runs
    to completion first.  The constructor is modelled on the URLs it
    accepts: for a URL with a fragment ([URL_has_fragment] below) it
    throws a [SyntaxError] instead, and the call that made it creates,
    registers and returns nothing; what is stated about the success of a
    call carries the hypothesis that the URL has no fragment. *)
Definition WebSocket_new (url : string) (c : Closure) : Js nat :=
  λ w, (Normal (length (sockets w)),
        mkWorld (api w) (sockets w ++ [mkWebSocket url CONNECTING c]) (output w)).

(** The check of the [WebSocket] constructor that depends on the ids: a URL
    has a fragment when a [#] occurs in it.  (The other checks of the
    constructor, a URL that parses and a [ws:] scheme the page may open,
    concern [wsUrl] alone, which the service takes from its environment.) *)
Fixpoint URL_has_fragment (url : string) : bool :=
  match url with
  | EmptyString => false
  | String c rest => Ascii.eqb c (Ascii.ascii_of_nat 35) || URL_has_fragment rest
  end.

(** The numeric value of [ws.readyState]. *)
Definition readyState_code (r : ReadyState) : JsValue :=
  JNum match r with
       | CONNECTING => 0%float
       | OPEN => 1%float
       | CLOSING => 2%float
       | CLOSED => 3%float
       end.

Record CloseEvent : Type := mkCloseEvent {
  code : float;
  reason : string;
  wasClean : bool;
}.

(** [Map.prototype.forEach] visits the entries in insertion order, which a
    [gmap] does not record; the one callback used below ([ws.close()])
    gives the same state in any order ([WebSocket_close_comm]). *)
Fixpoint forEach (values : list nat) (f : nat → Js unit) : Js unit :=
  match values with
  | [] => ret ()
  | ws :: rest => (f ws ;; forEach rest f)%js
  end.

(** ** Promises *)

(** The second argument of [fetchApi]; no caller passes [headers]. *)
Record RequestInit : Type := mkRequestInit {
  init_method : option string;
  init_body : option string;
}.

(** What [fetch] is called with. *)
Record Request : Type := mkRequest {
  request_url : string;
  request_method : option string;
  request_headers : list (string * string);
  request_body : option string;
}.

(** A [Response]; [json] is the outcome of [response.json()], fixed by the
    body the server sent. *)
Record Response : Type := mkResponse {
  ok : bool;
  status : N;
  statusText : string;
  json : Completion JsValue;
}.

(** An HTTP status as a JavaScript number. *)
Definition number (n : N) : JsValue :=
  JNum (PrimFloat.of_uint63 (Uint63.of_Z (Z.of_N n))).

(** An [async] function of [ApiService]: it prints, suspends on [fetch]
    until the network answers (with a response, or with a rejection), and
    settles.  Durations are left out of the logged records. *)
Inductive Async (A : Type) : Type :=
| Resolve (a : A)
| Reject (e : JsValue)
| Print (o : Output) (next : Async A)
| Await_fetch (request : Request) (next : Completion Response → Async A).
Arguments Resolve {A} a.
Arguments Reject {A} e.
Arguments Print {A} o next.
Arguments Await_fetch {A} request next.

Fixpoint then_ {A B} (m : Async A) (k : A → Async B) : Async B :=
  match m with
  | Resolve a => k a
  | Reject e => Reject e
  | Print o next => Print o (then_ next k)
  | Await_fetch request next => Await_fetch request (λ r, then_ (next r) k)
  end.

Fixpoint catch {A} (m : Async A) (handler : JsValue → Async A) : Async A :=
  match m with
  | Resolve a => Resolve a
  | Reject e => handler e
  | Print o next => Print o (catch next handler)
  | Await_fetch request next => Await_fetch request (λ r, catch (next r) handler)
  end.

Definition settle {A} (c : Completion A) : Async A :=
  match c with
  | Normal a => Resolve a
  | Throws e => Reject e
  end.

Definition print (o : Output) : Async unit := Print o (Resolve ()).

Declare Scope async_scope.
Delimit Scope async_scope with async.
Notation "x <- m ;; k" := (then_ m (λ x, k))
  (at level 100, m at next level, right associativity) : async_scope.
Notation "m ;; k" := (then_ m (λ _, k))
  (at level 100, right associativity) : async_scope.

(** The first request a computation sends, if it sends one. *)
Fixpoint first_request {A} (m : Async A) : option Request :=
  match m with
  | Resolve _ | Reject _ => None
  | Print _ next => first_request next
  | Await_fetch request _ => Some request
  end.

(** The requests sent when the network answers every request with
    [answer]. *)
Fixpoint requests {A} (answer : Request → Completion Response) (m : Async A)
  : list Request :=
  match m with
  | Resolve _ | Reject _ => []
  | Print _ next => requests answer next
  | Await_fetch request next => request :: requests answer (next (answer request))
  end.

Section ApiService.

(** [JSON.parse] (which throws a [SyntaxError] on malformed text) and
    [JSON.stringify] belong to the runtime. *)
Variable JSON_parse : string → Completion JsValue.
Variable JSON_stringify : JsValue → string.

(** *** connectDocumentSocket and the handlers it installs *)

Definition onopen (c : Closure) : Js unit :=
  (base <- this_wsUrl ;;
   emit (console_log
           ("[WebSocket] Connected for " ++ arxivId c ++ " v" ++ version c)
           [("url", JStr (base ++ "/ws/" ++ arxivId c ++ "/" ++ version c))]))%js.

(** The body of the [try] block of [ws.onmessage].  The arguments of the
    second [console.log] are evaluated before it prints, so a throw
    among them prints nothing. *)
Definition onmessage_try (c : Closure) (event_data : string) : Js unit :=
  (emit (console_log
           ("[WebSocket] Message received for " ++ arxivId c ++ " v" ++ version c ++ ":")
           [("raw", JStr event_data)]) ;;
   message <- lift (JSON_parse event_data) ;;
   paper_id <- lift (Js.get message "paper_id") ;;
   version <- lift (Js.get message "version") ;;
   type <- lift (Js.get message "type") ;;
   data <- lift (Js.get message "data") ;;
   let data_keys := if Js.truthy data then Js.keys data else JNull in
   let loading_status :=
     Js.or (Js.opt_get data "loading_status") (Js.opt_get data "loadingStatus") in
   let loading_error :=
     Js.or (Js.opt_get data "loading_error") (Js.opt_get data "loadingError") in
   emit (console_log "[WebSocket] Parsed message:"
           [("paper_id", paper_id); ("version", version); ("type", type);
            ("data_keys", data_keys); ("loading_status", loading_status);
            ("loading_error", loading_error); ("full_message", message)]) ;;
   call_onUpdate (onUpdate c) (Js.or data message))%js.

Definition onmessage (c : Closure) (event_data : string) : Js unit :=
  try_catch (onmessage_try c event_data)
    (λ error,
       emit (console_error
               ("[WebSocket] Failed to parse message for "
                  ++ arxivId c ++ " v" ++ version c ++ ":")
               [("error", error); ("raw_data", JStr event_data)])).

Definition onerror (ws : nat) (c : Closure) (error : JsValue) : Js unit :=
  λ w,
    let this_ws := default (mkWebSocket EmptyString CLOSED c) (sockets w !! ws) in
    (emit (console_error
             ("[WebSocket] Error for " ++ arxivId c ++ " v" ++ version c ++ ":")
             [("error", error);
              ("readyState", readyState_code (readyState this_ws));
              ("url", JStr (url this_ws))]) ;;
     match onError c with
     | Some onError => call_onError onError error
     | None => ret ()
     end)%js w.

Definition onclose (c : Closure) (event : CloseEvent) : Js unit :=
  (emit (console_log
           ("[WebSocket] Closed for " ++ arxivId c ++ " v" ++ version c ++ ":")
           [("code", JNum (code event)); ("reason", JStr (reason event));
            ("wasClean", JBool (wasClean event))]) ;;
   set_websockets (delete (wsKey c)))%js.

Definition connectDocumentSocket
    (arxivId version : string) (onUpdate : Callback) (onError : option Callback)
  : Js nat :=
  (let wsKey := arxivId ++ "_" ++ version in
   base <- this_wsUrl ;;
   let wsUrl := base ++ "/ws/" ++ arxivId ++ "/" ++ version in
   registry <- this_websockets ;;
   match registry !! wsKey with
   | Some existing =>
       emit (console_log
               ("[WebSocket] Closing existing connection for "
                  ++ arxivId ++ " v" ++ version) []) ;;
       WebSocket_close existing
   | None => ret ()
   end ;;
   emit (console_log
           ("[WebSocket] Creating new connection for "
              ++ arxivId ++ " v" ++ version ++ ":")
           [("url", JStr wsUrl)]) ;;
   ws <- WebSocket_new wsUrl (mkClosure arxivId version wsKey onUpdate onError) ;;
   set_websockets (insert wsKey ws) ;;
   registry <- this_websockets ;;
   emit (console_log
           ("[WebSocket] WebSocket registered in map: " ++ wsKey
              ++ " | Total active connections: " ++ pretty (size registry)) []) ;;
   ret ws)%js.

Definition closeAllWebSockets : Js unit :=
  (registry <- this_websockets ;;
   forEach (map_to_list registry).*2 WebSocket_close ;;
   set_websockets (λ _, ∅))%js.

(** *** The event loop *)

(** What the browser delivers to a socket.  A connection that ends is one
    task: the ready state becomes [CLOSED], an error event is fired first
    when the connection failed ([failure] is that event), then the close
    event.  A message is delivered only to an open socket, the open event
    only to a connecting one, and a socket ends once. *)
Inductive Event : Type :=
| open_event (ws : nat)
| message_event (ws : nat) (data : string)
| connection_closed (ws : nat) (failure : option JsValue) (event : CloseEvent).

(** An exception that leaves a handler is reported by the browser and
    goes no further. *)
Definition uncaught (handler : Js unit) : Js unit :=
  try_catch handler (λ e, emit (console_error "Uncaught" [("error", e)])).

Definition dispatch (e : Event) : Js unit :=
  λ w,
    match e with
    | open_event ws =>
        match sockets w !! ws with
        | Some s =>
            if decide (readyState s = CONNECTING)
            then (set_sockets (alter (with_readyState (λ _, OPEN)) ws) ;;
                  uncaught (onopen (handlers s)))%js w
            else (Normal (), w)
        | None => (Normal (), w)
        end
    | message_event ws data =>
        match sockets w !! ws with
        | Some s =>
            if decide (readyState s = OPEN)
            then uncaught (onmessage (handlers s) data) w
            else (Normal (), w)
        | None => (Normal (), w)
        end
    | connection_closed ws failure event =>
        match sockets w !! ws with
        | Some s =>
            if decide (readyState s = CLOSED)
            then (Normal (), w)
            else (set_sockets (alter (with_readyState (λ _, CLOSED)) ws) ;;
                  match failure with
                  | Some error => uncaught (onerror ws (handlers s) error)
                  | None => ret ()
                  end ;;
                  uncaught (onclose (handlers s) event))%js w
        | None => (Normal (), w)
        end
    end.

(** One turn of the event loop: a call made by the consumer, or an event
    delivered by the browser. *)
Inductive Action : Type :=
| Connect (arxivId version : string) (onUpdate : Callback) (onError : option Callback)
| CloseAll
| Deliver (e : Event).

Definition perform (a : Action) (w : World) : World :=
  match a with
  | Connect arxivId version onUpdate onError =>
      (connectDocumentSocket arxivId version onUpdate onError w).2
  | CloseAll => (closeAllWebSockets w).2
  | Deliver e => (dispatch e w).2
  end.

Definition run (actions : list Action) (w : World) : World :=
  foldl (λ w a, perform a w) w actions.

(** *** The REST helpers *)

Definition fetchApi (this : ApiService) (endpoint : string)
    (options : option RequestInit) : Async Response :=
  (let url := baseUrl this ++ endpoint in
   let method :=
     match options ≫= init_method with
     | Some m => if String.eqb m EmptyString then "GET" else m
     | None => "GET"
     end in
   body <- match options ≫= init_body with
           | Some b => if String.eqb b EmptyString then Resolve JUndefined
                       else settle (JSON_parse b)
           | None => Resolve JUndefined
           end ;;
   print (console_log ("[API] " ++ method ++ " " ++ endpoint)
            [("url", JStr url); ("headers", JUndefined); ("body", body)]) ;;
   catch
     (response <- Await_fetch
                    (mkRequest url (options ≫= init_method)
                       [("Content-Type", "application/json")]
                       (options ≫= init_body))
                    settle ;;
      if negb (ok response)
      then
        let error :=
          match json response with
          | Normal v => v
          | Throws _ => JObj [("detail", JStr (statusText response))]
          end in
        print (console_error ("[API] " ++ method ++ " " ++ endpoint ++ " failed:")
                 [("status", number (status response));
                  ("statusText", JStr (statusText response));
                  ("error", error)]) ;;
        detail <- settle (Js.get error "detail") ;;
        Reject (JError "Error"
                  (Js.or detail
                     (JStr ("HTTP " ++ pretty (status response) ++ ": "
                              ++ statusText response))))
      else
        print (console_log ("[API] " ++ method ++ " " ++ endpoint ++ " success:")
                 [("status", number (status response))]) ;;
        Resolve response)
     (λ error,
        print (console_error ("[API] " ++ method ++ " " ++ endpoint ++ " error:")
                 [("error", error)]) ;;
        Reject error))%async.

(** A value printed by itself is listed under the name of its variable. *)
Definition requestPaperImport (this : ApiService) (arxivId : string) : Async JsValue :=
  (print (console_log ("[API] Requesting paper import for " ++ arxivId) []) ;;
   response <- fetchApi this "/api/papers/import"
                 (Some (mkRequestInit (Some "POST")
                          (Some (JSON_stringify (JObj [("arxiv_id", JStr arxivId)]))))) ;;
   result <- settle (json response) ;;
   print (console_log ("[API] Paper import response for " ++ arxivId ++ ":")
            [("result", result)]) ;;
   Resolve result)%async.

Definition getMetadata (this : ApiService) (arxivId : string) : Async JsValue :=
  (print (console_log ("[API] Fetching metadata for " ++ arxivId) []) ;;
   response <- fetchApi this ("/api/metadata/" ++ arxivId) None ;;
   result <- settle (json response) ;;
   print (console_log ("[API] Metadata response for " ++ arxivId ++ ":")
            [("result", result)]) ;;
   Resolve result)%async.

Definition getDocument (this : ApiService) (arxivId version : string) : Async JsValue :=
  (print (console_log ("[API] Fetching document " ++ arxivId ++ " v" ++ version) []) ;;
   response <- fetchApi this ("/api/documents/" ++ arxivId ++ "/" ++ version) None ;;
   result <- settle (json response) ;;
   print (console_log
            ("[API] Document response for " ++ arxivId ++ " v" ++ version ++ ":")
            [("hasData", JBool (Js.truthy result));
             ("loadingStatus",
              Js.or (Js.opt_get result "loading_status")
                    (Js.opt_get result "loadingStatus"));
             ("dataKeys", if Js.truthy result then Js.keys result else JNull)]) ;;
   Resolve result)%async.

Definition getImportStatus (this : ApiService) (arxivId version : string)
  : Async JsValue :=
  (response <- fetchApi this ("/api/papers/status/" ++ arxivId ++ "/" ++ version) None ;;
   settle (json response))%async.

End ApiService.

(** ** shared/api_callables.ts *)

Module api_callables.
Section callables.
Variable JSON_parse : string → Completion JsValue.
Variable JSON_stringify : JsValue → string.

Definition requestArxivDocImportCallable (apiService : ApiService) (arxivId : string)
  : Async JsValue :=
  requestPaperImport JSON_parse JSON_stringify apiService arxivId.

Definition getArxivMetadata (apiService : ApiService) (arxivId : string)
  : Async JsValue :=
  getMetadata JSON_parse apiService arxivId.

Definition getDocument (apiService : ApiService) (arxivId version : string)
  : Async JsValue :=
  getDocument JSON_parse apiService arxivId version.

Definition getImportStatus (apiService : ApiService) (arxivId version : string)
  : Async JsValue :=
  getImportStatus JSON_parse apiService arxivId version.
End callables.
End api_callables.

(** ** HomeService *)

Section HomeService.

(** The declarations of [ArxivMetadata] and [FeaturedImage]
    (shared/lumi_doc.ts) are taken as parameters; [paperId] reads
    [metadata.paperId], which the code allows to be [undefined]. *)
Variables ArxivMetadata FeaturedImage : Type.
Variable paperId : ArxivMetadata → option string.

(** Modelled from the spec: an entry of the local paper history
    ([PaperData], shared/types_local_storage.ts), of which the spec says
    that it is a [{metadata, ...}]; the code reads [metadata] and allows it
    to be missing. *)
Record PaperData : Type := mkPaperData {
  metadata : option ArxivMetadata;
}.

(** Modelled from the spec: [HistoryService] (history.service.ts), the
    local persisted store, of which the spec says that it exposes
    [getPaperHistory() -> list of {metadata}] and
    [getPaperData(id) -> {metadata, ...}].  Both only read the store. *)
Record HistoryService : Type := mkHistoryService {
  getPaperHistory : list PaperData;
  getPaperData : string → option PaperData;
}.

(** [ArxivCollection] (shared/lumi_collection.ts) is declared outside the
    sources at hand; the record keeps the two fields the getters read. *)
Record ArxivCollection : Type := mkArxivCollection {
  collectionId : string;
  paperIds : list string;
}.

(** The [firebaseService] of the provider is never used. *)
Record ServiceProvider : Type := mkServiceProvider {
  historyService : HistoryService;
}.

Record HomeService : Type := mkHomeService {
  sp : ServiceProvider;
  collections : list ArxivCollection;
  hasLoadedCollections : bool;
  isLoadingCollections : bool;
  paperToMetadataMap : gmap string ArxivMetadata;
  paperToFeaturedImageMap : gmap string FeaturedImage;
  currentCollection : option ArxivCollection;
  showUploadDialog : bool;
}.

Definition HomeService_new (sp : ServiceProvider) : HomeService :=
  mkHomeService sp [] false false ∅ ∅ None false.

(** A method of [HomeService]: the next state and what it printed. *)
Definition Method : Type := HomeService → HomeService * list Output.

Definition setShowUploadDialog (showUpload : bool) : Method :=
  λ this,
    (mkHomeService (sp this) (collections this) (hasLoadedCollections this)
       (isLoadingCollections this) (paperToMetadataMap this)
       (paperToFeaturedImageMap this) (currentCollection this) showUpload, []).

Definition set_currentCollection (c : option ArxivCollection) (this : HomeService)
  : HomeService :=
  mkHomeService (sp this) (collections this) (hasLoadedCollections this)
    (isLoadingCollections this) (paperToMetadataMap this)
    (paperToFeaturedImageMap this) c (showUploadDialog this).

Definition set_paperToMetadataMap (m : gmap string ArxivMetadata) (this : HomeService)
  : HomeService :=
  mkHomeService (sp this) (collections this) (hasLoadedCollections this)
    (isLoadingCollections this) m
    (paperToFeaturedImageMap this) (currentCollection this) (showUploadDialog this).

(** One turn of the [for] loop of [loadMetadata].  A metadata object is
    truthy, so [this.paperToMetadataMap.get(paperId)] is truthy exactly
    when the map has the key. *)
Definition loadMetadata_body (forceReload : bool)
    (st : HomeService * list Output) (paperId : string) : HomeService * list Output :=
  let '(this, out) := st in
  if String.eqb paperId EmptyString
     || (bool_decide (is_Some (paperToMetadataMap this !! paperId)) && negb forceReload)
  then st
  else
    let paperData := getPaperData (historyService (sp this)) paperId in
    match paperData ≫= metadata with
    | Some m =>
        (set_paperToMetadataMap (<[paperId := m]> (paperToMetadataMap this)) this,
         (out ++ [console_log ("[HomeService] Loaded metadata for " ++ paperId
                                 ++ " from local storage") []])%list)
    | None =>
        (this,
         (out ++ [console_log ("[HomeService] Skipping Firebase metadata fetch for "
                                 ++ paperId ++ " (use API backend instead)") []])%list)
    end.

(** [loadMetadata] is declared [async] but awaits nothing: it runs to its
    end when called. *)
Definition loadMetadata (paperIds : list string) (forceReload : bool) : Method :=
  λ this, foldl (loadMetadata_body forceReload) (this, []) paperIds.

Definition setCurrentCollection (currentCollectionId : option string) : Method :=
  λ this,
    let out1 :=
      [console_log "[HomeService] Loading papers from local storage (localStorage)" []] in
    let this := set_currentCollection None this in
    let localPaperIds :=
      omap (λ item, metadata item ≫= paperId)
           (getPaperHistory (historyService (sp this))) in
    let out2 :=
      [console_log ("[HomeService] Found " ++ pretty (length localPaperIds)
                      ++ " papers in local storage") []] in
    let '(this, out3) := loadMetadata localPaperIds false this in
    (this, (out1 ++ out2 ++ out3)%list).

Definition currentCollectionId (this : HomeService) : option string :=
  collectionId <$> currentCollection this.

Definition currentMetadata (this : HomeService) : option (list ArxivMetadata) :=
  (λ c, omap (λ id, paperToMetadataMap this !! id) (paperIds c))
    <$> currentCollection this.

Definition loadCollections (currentCollectionId : option string) (forceReload : bool)
  : Method :=
  λ this,
    let '(this, out1) :=
      if negb (hasLoadedCollections this) || forceReload
      then
        (mkHomeService (sp this) [] true false (paperToMetadataMap this)
           (paperToFeaturedImageMap this) (currentCollection this)
           (showUploadDialog this),
         [console_log
            "[HomeService] Using local storage for collections (no remote collections yet)"
            []])
      else (this, []) in
    let '(this, out2) := setCurrentCollection currentCollectionId this in
    (this, (out1 ++ out2)%list).

End HomeService.

Arguments mkPaperData {ArxivMetadata} metadata.
Arguments metadata {ArxivMetadata} p.
Arguments mkHistoryService {ArxivMetadata} getPaperHistory getPaperData.
Arguments getPaperHistory {ArxivMetadata} h.
Arguments getPaperData {ArxivMetadata} h paperId.
Arguments mkServiceProvider {ArxivMetadata} historyService.
Arguments historyService {ArxivMetadata} s.
Arguments mkHomeService {ArxivMetadata FeaturedImage}.
Arguments sp {ArxivMetadata FeaturedImage} h.
Arguments collections {ArxivMetadata FeaturedImage} h.
Arguments hasLoadedCollections {ArxivMetadata FeaturedImage} h.
Arguments isLoadingCollections {ArxivMetadata FeaturedImage} h.
Arguments paperToMetadataMap {ArxivMetadata FeaturedImage} h.
Arguments paperToFeaturedImageMap {ArxivMetadata FeaturedImage} h.
Arguments currentCollection {ArxivMetadata FeaturedImage} h.
Arguments showUploadDialog {ArxivMetadata FeaturedImage} h.
Arguments HomeService_new {ArxivMetadata} FeaturedImage sp.
Arguments setShowUploadDialog {ArxivMetadata FeaturedImage} showUpload this.
Arguments loadMetadata_body {ArxivMetadata FeaturedImage} forceReload st paperId.
Arguments loadMetadata {ArxivMetadata FeaturedImage} paperIds forceReload this.
Arguments set_currentCollection {ArxivMetadata FeaturedImage} c this.
Arguments set_paperToMetadataMap {ArxivMetadata FeaturedImage} m this.
Arguments setCurrentCollection {ArxivMetadata FeaturedImage} paperId currentCollectionId this.
Arguments currentCollectionId {ArxivMetadata FeaturedImage} this.
Arguments currentMetadata {ArxivMetadata FeaturedImage} this.
Arguments loadCollections {ArxivMetadata FeaturedImage} paperId currentCollectionId forceReload this.

(** * Properties *)

(** An output that is a line of the console, as opposed to a call of a
    consumer callback. *)
Definition is_console (o : Output) : Prop :=
  match o with
  | console_log _ _ | console_error _ _ => True
  | onUpdate_call _ _ | onError_call _ _ => False
  end.

Definition is_console_log (o : Output) : Prop :=
  match o with
  | console_log _ _ => True
  | _ => False
  end.

(** ** The socket registry *)

Section registry_facts.

Implicit Types (w : World) (s : WebSocket) (r : ReadyState).

Lemma close_state_idemp r : close_state (close_state r) = close_state r.
Proof. by destruct r. Qed.

(** The sockets after a call of [connectDocumentSocket]: the socket that
    was registered under the key has [close()] called on it, and the new
    socket is added at the end. *)
Definition sockets_after_connect (key : string) (new : WebSocket) w : list WebSocket :=
  match websockets (api w) !! key with
  | Some existing => alter (with_readyState close_state) existing (sockets w)
  | None => sockets w
  end ++ [new].

Lemma connectDocumentSocket_spec arxivId version onUpdate onError w :
  ∃ lines,
    connectDocumentSocket arxivId version onUpdate onError w
    = (Normal (length (sockets w)),
       mkWorld
         (mkApiService (baseUrl (api w)) (wsUrl (api w))
            (<[arxivId ++ "_" ++ version := length (sockets w)]> (websockets (api w))))
         (sockets_after_connect (arxivId ++ "_" ++ version)
            (mkWebSocket (wsUrl (api w) ++ "/ws/" ++ arxivId ++ "/" ++ version)
               CONNECTING
               (mkClosure arxivId version (arxivId ++ "_" ++ version) onUpdate onError))
            w)
         (output w ++ lines))
    ∧ Forall is_console_log lines.
Proof.
  unfold connectDocumentSocket, sockets_after_connect, bind, this_wsUrl,
    this_websockets, emit, WebSocket_close, WebSocket_new, set_websockets,
    set_sockets, ret.
  cbn.
  destruct (websockets (api w) !! (arxivId ++ "_" ++ version)) as [existing|]; cbn.
  - rewrite length_alter. rewrite <- !app_assoc. cbn.
    eexists. split; [reflexivity|]. by repeat constructor.
  - rewrite <- !app_assoc. cbn.
    eexists. split; [reflexivity|]. by repeat constructor.
Qed.

Lemma sockets_after_connect_length key new w :
  length (sockets_after_connect key new w) = S (length (sockets w)).
Proof.
  unfold sockets_after_connect. rewrite length_app. cbn.
  destruct (websockets (api w) !! key); rewrite ?length_alter; lia.
Qed.

Lemma sockets_after_connect_new key new w :
  sockets_after_connect key new w !! length (sockets w) = Some new.
Proof.
  unfold sockets_after_connect.
  destruct (websockets (api w) !! key) as [existing|].
  - rewrite lookup_app_r by (rewrite length_alter; lia).
    rewrite length_alter. by rewrite Nat.sub_diag.
  - rewrite lookup_app_r by lia. by rewrite Nat.sub_diag.
Qed.

Lemma sockets_after_connect_old key new w i s :
  sockets w !! i = Some s →
  sockets_after_connect key new w !! i
  = Some (if decide (websockets (api w) !! key = Some i)
          then with_readyState close_state s else s).
Proof.
  intros Hs. unfold sockets_after_connect.
  pose proof (lookup_lt_Some _ _ _ Hs) as Hlt.
  destruct (websockets (api w) !! key) as [existing|].
  - rewrite lookup_app_l by (rewrite length_alter; lia).
    destruct (decide (existing = i)) as [->|Hne].
    + rewrite decide_True by done. rewrite list_lookup_alter_eq. by rewrite Hs.
    + rewrite decide_False by congruence.
      by rewrite list_lookup_alter_ne.
  - rewrite decide_False by done. by rewrite lookup_app_l.
Qed.

(** The handlers of a socket change the console and, for [onclose], the
    registry; an exception of the consumer's [onError] stops there. *)
Lemma uncaught_onerror ws c error w :
  ∃ lines,
    uncaught (onerror ws c error) w
    = (Normal (), mkWorld (api w) (sockets w) (output w ++ lines)).
Proof.
  unfold uncaught, try_catch, onerror, call_onError, bind, emit, ret, throw. cbn.
  destruct (onError c) as [cb|]; cbn.
  - destruct (cb_throws cb error); cbn; rewrite <- !app_assoc; eauto.
  - eauto.
Qed.

Lemma uncaught_onclose c event w :
  ∃ lines,
    uncaught (onclose c event) w
    = (Normal (),
       mkWorld
         (mkApiService (baseUrl (api w)) (wsUrl (api w))
            (delete (wsKey c) (websockets (api w))))
         (sockets w) (output w ++ lines)).
Proof. unfold uncaught, try_catch, onclose, bind, emit, set_websockets. cbn. eauto. Qed.

(** *** closeAllWebSockets *)

(** The sockets after [close()] was called on each of [refs] in turn. *)
Definition close_each (refs : list nat) (l : list WebSocket) : list WebSocket :=
  foldl (λ l ws, alter (with_readyState close_state) ws l) l refs.

Lemma close_each_cons ws refs l :
  close_each (ws :: refs) l
  = close_each refs (alter (with_readyState close_state) ws l).
Proof. reflexivity. Qed.

Lemma forEach_close refs w :
  forEach refs WebSocket_close w
  = (Normal (), mkWorld (api w) (close_each refs (sockets w)) (output w)).
Proof.
  revert w. induction refs as [|ws refs IH]; intros w.
  - by destruct w.
  - cbn [forEach]. unfold bind, WebSocket_close at 1, set_sockets.
    by rewrite IH, close_each_cons.
Qed.

Lemma with_readyState_close_idemp s :
  with_readyState close_state (with_readyState close_state s)
  = with_readyState close_state s.
Proof. unfold with_readyState. cbn. by rewrite close_state_idemp. Qed.

Lemma close_each_lookup refs l i :
  close_each refs l !! i
  = (if decide (i ∈ refs) then with_readyState close_state else id) <$> l !! i.
Proof.
  revert l. induction refs as [|ws refs IH]; intros l.
  - cbn. rewrite decide_False by set_solver. by destruct (l !! i).
  - rewrite close_each_cons, IH.
    destruct (decide (i = ws)) as [->|Hne].
    + rewrite list_lookup_alter_eq. rewrite (decide_True (P := ws ∈ ws :: refs)) by set_solver.
      destruct (l !! ws) as [s|]; [|done]. cbn.
      destruct (decide (ws ∈ refs)); [|done].
      by rewrite with_readyState_close_idemp.
    + rewrite list_lookup_alter_ne by done.
      destruct (decide (i ∈ refs)).
      * by rewrite decide_True by set_solver.
      * by rewrite decide_False by set_solver.
Qed.

(** The order in which [forEach] visits the sockets does not matter. *)
Lemma forEach_close_Permutation refs refs' w :
  refs ≡ₚ refs' →
  forEach refs WebSocket_close w = forEach refs' WebSocket_close w.
Proof.
  intros Hperm. rewrite !forEach_close. do 2 f_equal.
  apply list_eq. intros i. rewrite !close_each_lookup.
  destruct (decide (i ∈ refs)) as [Hin|Hin].
  - by rewrite decide_True by (by rewrite <- Hperm).
  - by rewrite decide_False by (by rewrite <- Hperm).
Qed.

Lemma WebSocket_close_comm a b w :
  (WebSocket_close a ;; WebSocket_close b)%js w
  = (WebSocket_close b ;; WebSocket_close a)%js w.
Proof.
  pose proof (forEach_close_Permutation [a; b] [b; a] w (Permutation_swap _ _ _)) as H.
  rewrite !forEach_close in H. unfold bind, WebSocket_close, set_sockets. cbn.
  by injection H as ->.
Qed.

Lemma closeAllWebSockets_spec w :
  closeAllWebSockets w
  = (Normal (),
     mkWorld (mkApiService (baseUrl (api w)) (wsUrl (api w)) ∅)
       (close_each (map_to_list (websockets (api w))).*2 (sockets w))
       (output w)).
Proof.
  unfold closeAllWebSockets, bind, this_websockets. rewrite forEach_close.
  by unfold set_websockets.
Qed.

(** C8.  [closeAllWebSockets] returns normally, calls [close()] on every
    socket that is registered when it is called (a socket that was
    connecting or open is then closing), and leaves the registry empty.
    On an empty registry it changes nothing, and calling it a second time
    changes nothing more. *)
Theorem closeAllWebSockets_closes_clears_and_is_idempotent w :
  (closeAllWebSockets w).1 = Normal ()
  ∧ websockets (api (closeAllWebSockets w).2) = ∅
  ∧ (∀ key ws s,
       websockets (api w) !! key = Some ws → sockets w !! ws = Some s →
       sockets (closeAllWebSockets w).2 !! ws = Some (with_readyState close_state s)
       ∧ readyState (with_readyState close_state s) ≠ CONNECTING
       ∧ readyState (with_readyState close_state s) ≠ OPEN)
  ∧ (websockets (api w) = ∅ → (closeAllWebSockets w).2 = w)
  ∧ (closeAllWebSockets (closeAllWebSockets w).2).2 = (closeAllWebSockets w).2.
Proof.
  assert (∀ w', websockets (api w') = ∅ → (closeAllWebSockets w').2 = w') as Hempty.
  { intros [[b u r] l out] Hr. cbn in Hr. subst r.
    rewrite closeAllWebSockets_spec. cbn. by rewrite map_to_list_empty. }
  rewrite closeAllWebSockets_spec. cbn [fst snd api websockets sockets].
  split; [done|]. split; [done|]. split; [|split].
  - intros key ws s Hreg Hs. split; [|by destruct s as [? [] ?]].
    rewrite close_each_lookup, Hs. rewrite decide_True; [done|].
    apply list_elem_of_fmap. exists (key, ws). split; [done|].
    by apply elem_of_map_to_list.
  - intros Hr. specialize (Hempty w Hr).
    by rewrite closeAllWebSockets_spec in Hempty.
  - by apply Hempty.
Qed.

End registry_facts.

(** ** The message handler *)

Section ApiService_facts.

Variable JSON_parse : string → Completion JsValue.

Implicit Types (w : World) (c : Closure) (s : WebSocket).

Lemma get_normal_any_key m k k' d :
  Js.get m k = Normal d → ∃ d', Js.get m k' = Normal d'.
Proof. destruct m; simpl; intros H; try discriminate; eauto. Qed.

(** A frame that [JSON.parse] rejects: two lines on the console, and
    nothing else happens. *)
Lemma onmessage_malformed c raw e w :
  JSON_parse raw = Throws e →
  onmessage JSON_parse c raw w
  = (Normal (),
     mkWorld (api w) (sockets w)
       (output w ++
          [console_log
             ("[WebSocket] Message received for " ++ arxivId c ++ " v" ++ version c ++ ":")
             [("raw", JStr raw)];
           console_error
             ("[WebSocket] Failed to parse message for "
                ++ arxivId c ++ " v" ++ version c ++ ":")
             [("error", e); ("raw_data", JStr raw)]])).
Proof.
  intros Hparse.
  unfold onmessage, try_catch, onmessage_try, bind, emit, lift. cbn.
  rewrite Hparse. cbn. by rewrite <- app_assoc.
Qed.

(** A frame that parses to a value [m] whose property [data] can be read
    (anything but [null]): two lines on the console, then [onUpdate] is
    called with [m.data || m]; if the callback throws, the [catch] block
    prints one more line. *)
Lemma onmessage_parsed c raw m d w :
  JSON_parse raw = Normal m →
  Js.get m "data" = Normal d →
  ∃ line1 line2 after,
    onmessage JSON_parse c raw w
    = (Normal (),
       mkWorld (api w) (sockets w)
         (output w ++ [line1; line2; onUpdate_call (onUpdate c) (Js.or d m)] ++ after))
    ∧ is_console line1 ∧ is_console line2 ∧ Forall is_console after
    ∧ (cb_throws (onUpdate c) (Js.or d m) = false → after = []).
Proof.
  intros Hparse Hdata.
  destruct (get_normal_any_key m "data" "paper_id" d Hdata) as [v1 H1].
  destruct (get_normal_any_key m "data" "version" d Hdata) as [v2 H2].
  destruct (get_normal_any_key m "data" "type" d Hdata) as [v3 H3].
  unfold onmessage, try_catch, onmessage_try, call_onUpdate, bind, emit, lift, ret, throw.
  cbn. rewrite Hparse. cbn. rewrite H1, H2, H3, Hdata. cbn.
  destruct (cb_throws (onUpdate c) (Js.or d m)) eqn:Hthrows; cbn;
    rewrite <- !app_assoc; cbn.
  - eexists _, _, [_]. split; [reflexivity|].
    split; [exact I|]. split; [exact I|]. split; [|discriminate].
    by apply Forall_singleton.
  - eexists _, _, []. split; [reflexivity|].
    split; [exact I|]. split; [exact I|]. split; [constructor|done].
Qed.

Lemma onmessage_returns c raw w : (onmessage JSON_parse c raw w).1 = Normal ().
Proof.
  unfold onmessage, try_catch.
  destruct (onmessage_try JSON_parse c raw w) as [[[]|e] w']; done.
Qed.

Lemma uncaught_normal (handler : Js unit) w :
  (handler w).1 = Normal () → uncaught handler w = handler w.
Proof.
  unfold uncaught, try_catch. destruct (handler w) as [[[]|e] w']; [done|discriminate].
Qed.

(** A message reaches the handler of an open socket. *)
Lemma dispatch_message w ws s raw :
  sockets w !! ws = Some s → readyState s = OPEN →
  dispatch JSON_parse (message_event ws raw) w = onmessage JSON_parse (handlers s) raw w.
Proof.
  intros Hs Hopen. unfold dispatch. rewrite Hs.
  rewrite decide_True by done. apply uncaught_normal, onmessage_returns.
Qed.

Lemma run_app actions1 actions2 w :
  run JSON_parse (actions1 ++ actions2) w = run JSON_parse actions2 (run JSON_parse actions1 w).
Proof. apply foldl_app. Qed.

Lemma run_cons a actions w :
  run JSON_parse (a :: actions) w = run JSON_parse actions (perform JSON_parse a w).
Proof. reflexivity. Qed.

Lemma run_nil w : run JSON_parse [] w = w.
Proof. reflexivity. Qed.

(** The end of a connection reaches a socket that is not closed yet: the
    socket becomes [CLOSED], and its [onclose] handler deletes the entry
    that the registry has under the key of that socket, whichever socket
    the entry refers to. *)
Lemma dispatch_connection_closed w ws s failure event :
  sockets w !! ws = Some s → readyState s ≠ CLOSED →
  ∃ lines,
    dispatch JSON_parse (connection_closed ws failure event) w
    = (Normal (),
       mkWorld
         (mkApiService (baseUrl (api w)) (wsUrl (api w))
            (delete (wsKey (handlers s)) (websockets (api w))))
         (alter (with_readyState (λ _, CLOSED)) ws (sockets w))
         (output w ++ lines)).
Proof.
  intros Hs Hr. unfold dispatch. rewrite Hs. rewrite decide_False by done.
  unfold bind at 1 2. unfold set_sockets at 1. cbn [fst snd].
  destruct failure as [error|].
  - match goal with |- context [uncaught (onerror ws (handlers s) error) ?w1] =>
      destruct (uncaught_onerror ws (handlers s) error w1) as [l1 ->] end.
    match goal with |- context [uncaught (onclose (handlers s) event) ?w2] =>
      destruct (uncaught_onclose (handlers s) event w2) as [l2 ->] end.
    cbn. rewrite <- app_assoc. eauto.
  - unfold ret.
    match goal with |- context [uncaught (onclose (handlers s) event) ?w2] =>
      destruct (uncaught_onclose (handlers s) event w2) as [l2 ->] end.
    cbn. eauto.
Qed.

Lemma perform_Connect arxivId version onUpdate onError w :
  ∃ lines,
    perform JSON_parse (Connect arxivId version onUpdate onError) w
    = mkWorld
        (mkApiService (baseUrl (api w)) (wsUrl (api w))
           (<[arxivId ++ "_" ++ version := length (sockets w)]> (websockets (api w))))
        (sockets_after_connect (arxivId ++ "_" ++ version)
           (mkWebSocket (wsUrl (api w) ++ "/ws/" ++ arxivId ++ "/" ++ version)
              CONNECTING
              (mkClosure arxivId version (arxivId ++ "_" ++ version) onUpdate onError))
           w)
        (output w ++ lines).
Proof.
  destruct (connectDocumentSocket_spec arxivId version onUpdate onError w)
    as (lines & Heq & _).
  exists lines. cbn [perform]. by rewrite Heq.
Qed.

(** C1, where the code departs from it.  Two calls of
    [connectDocumentSocket] with one key, then the close event of the
    first socket (which the second call asked for with [close()]): the
    [onclose] handler of the first socket deletes the key, so the second
    socket, still connecting, is no longer registered.  A third call then
    finds nothing to close: the second and the third socket are both
    left connecting, and only the third is registered. *)
Theorem close_event_of_replaced_socket_unregisters_its_successor
    w arxivId version u1 e1 u2 e2 u3 e3 failure event :
  websockets
    (api (run JSON_parse
            [Connect arxivId version u1 e1; Connect arxivId version u2 e2;
             Deliver (connection_closed (length (sockets w)) failure event)] w))
    !! (arxivId ++ "_" ++ version) = None
  ∧ readyState <$>
      sockets (run JSON_parse
                 [Connect arxivId version u1 e1; Connect arxivId version u2 e2;
                  Deliver (connection_closed (length (sockets w)) failure event)] w)
      !! S (length (sockets w)) = Some CONNECTING
  ∧ websockets
      (api (run JSON_parse
              [Connect arxivId version u1 e1; Connect arxivId version u2 e2;
               Deliver (connection_closed (length (sockets w)) failure event);
               Connect arxivId version u3 e3] w))
      !! (arxivId ++ "_" ++ version) = Some (S (S (length (sockets w))))
  ∧ readyState <$>
      sockets (run JSON_parse
                 [Connect arxivId version u1 e1; Connect arxivId version u2 e2;
                  Deliver (connection_closed (length (sockets w)) failure event);
                  Connect arxivId version u3 e3] w)
      !! S (length (sockets w)) = Some CONNECTING
  ∧ readyState <$>
      sockets (run JSON_parse
                 [Connect arxivId version u1 e1; Connect arxivId version u2 e2;
                  Deliver (connection_closed (length (sockets w)) failure event);
                  Connect arxivId version u3 e3] w)
      !! S (S (length (sockets w))) = Some CONNECTING.
Proof.
  set (key := arxivId ++ "_" ++ version).
  set (n := length (sockets w)).
  rewrite !run_cons, !run_nil.
  (* the first call *)
  destruct (perform_Connect arxivId version u1 e1 w) as [l1 ->].
  fold key n.
  set (new1 := mkWebSocket _ CONNECTING (mkClosure arxivId version key u1 e1)).
  set (w1 := mkWorld _ (sockets_after_connect key new1 w) _).
  assert (length (sockets w1) = S n) as Hlen1
    by apply sockets_after_connect_length.
  assert (sockets w1 !! n = Some new1) as Hnew1
    by apply sockets_after_connect_new.
  assert (websockets (api w1) !! key = Some n) as Hreg1
    by apply lookup_insert_eq.
  (* the second call *)
  destruct (perform_Connect arxivId version u2 e2 w1) as [l2 ->].
  fold key. rewrite Hlen1.
  set (new2 := mkWebSocket _ CONNECTING (mkClosure arxivId version key u2 e2)).
  set (w2 := mkWorld _ (sockets_after_connect key new2 w1) _).
  assert (length (sockets w2) = S (S n)) as Hlen2.
  { unfold w2. cbn [sockets]. by rewrite sockets_after_connect_length, Hlen1. }
  assert (sockets w2 !! n = Some (with_readyState close_state new1)) as Hold2.
  { unfold w2. cbn [sockets].
    rewrite (sockets_after_connect_old key new2 w1 n new1 Hnew1).
    by rewrite decide_True. }
  assert (sockets w2 !! S n = Some new2) as Hnew2.
  { unfold w2. cbn [sockets]. rewrite <- Hlen1. apply sockets_after_connect_new. }
  (* the close event of the first socket *)
  cbn [perform].
  destruct (dispatch_connection_closed w2 n _ failure event Hold2) as [l3 ->];
    [done|].
  cbn [snd handlers with_readyState wsKey].
  set (w3 := mkWorld _ (alter _ n (sockets w2)) _).
  assert (websockets (api w3) !! key = None) as Hreg3 by apply lookup_delete_eq.
  assert (sockets w3 !! S n = Some new2) as Hnew3.
  { unfold w3. cbn [sockets]. rewrite list_lookup_alter_ne by lia. exact Hnew2. }
  assert (length (sockets w3) = S (S n)) as Hlen3.
  { unfold w3. cbn [sockets]. by rewrite length_alter. }
  split; [exact Hreg3|]. split; [by rewrite Hnew3|].
  (* the third call *)
  destruct (perform_Connect arxivId version u3 e3 w3) as [l4 Heq4].
  cbn [perform] in Heq4. rewrite Heq4. fold key. rewrite Hlen3. cbn [api websockets sockets].
  split; [apply lookup_insert_eq|]. split.
  - rewrite (sockets_after_connect_old key _ w3 (S n) new2 Hnew3).
    rewrite decide_False by (rewrite Hreg3; done). done.
  - rewrite <- Hlen3. by rewrite sockets_after_connect_new.
Qed.

(** What does hold of the replacement: as long as no close event is
    delivered in between, after any number of calls with one key the
    registry refers to the socket of the last call, which is connecting,
    and every socket of an earlier call has had [close()] called on it. *)
Lemma connect_calls_without_events w arxivId version
    (calls : list (Callback * option Callback)) :
  calls ≠ [] →
  length (sockets (run JSON_parse
                     ((λ cb, Connect arxivId version cb.1 cb.2) <$> calls) w))
  = length (sockets w) + length calls
  ∧ websockets (api (run JSON_parse
                       ((λ cb, Connect arxivId version cb.1 cb.2) <$> calls) w))
      !! (arxivId ++ "_" ++ version)
    = Some (length (sockets w) + length calls - 1)
  ∧ readyState <$>
      sockets (run JSON_parse
                 ((λ cb, Connect arxivId version cb.1 cb.2) <$> calls) w)
      !! (length (sockets w) + length calls - 1) = Some CONNECTING
  ∧ ∀ i, i < length calls - 1 →
         readyState <$>
           sockets (run JSON_parse
                      ((λ cb, Connect arxivId version cb.1 cb.2) <$> calls) w)
           !! (length (sockets w) + i) = Some CLOSING.
Proof.
  set (key := arxivId ++ "_" ++ version). set (n := length (sockets w)).
  induction calls as [|[u e] calls IH] using rev_ind; [done|]. intros _.
  rewrite fmap_app, run_app, length_app. cbn [fmap list_fmap length fst snd].
  rewrite run_cons, run_nil.
  set (w' := run JSON_parse ((λ cb, Connect arxivId version cb.1 cb.2) <$> calls) w) in *.
  destruct (perform_Connect arxivId version u e w') as [lines ->].
  fold key. cbn [api websockets sockets].
  set (new := mkWebSocket _ CONNECTING _).
  rewrite sockets_after_connect_length.
  destruct (decide (calls = [])) as [Hcalls|Hcalls].
  - (* the first call *)
    assert (w' = w) as -> by (by subst calls). subst calls. fold n. cbn [length].
    replace (n + (0 + 1) - 1) with n by lia.
    split; [lia|]. split; [apply lookup_insert_eq|]. split.
    + unfold n. by rewrite sockets_after_connect_new.
    + intros i Hi. lia.
  - (* a later call *)
    destruct IH as (Hlen & Hreg & Hlast & Hprev); [done|].
    assert (0 < length calls) as Hpos.
    { destruct calls; [done|cbn; lia]. }
    fold n in Hlen, Hreg, Hlast, Hprev. rewrite Hlen.
    replace (n + (length calls + 1) - 1) with (n + length calls) by lia.
    split; [lia|]. split; [apply lookup_insert_eq|]. split.
    + rewrite <- Hlen. by rewrite sockets_after_connect_new.
    + intros i Hi.
      destruct (decide (i = length calls - 1)) as [->|Hne].
      * destruct (sockets w' !! (n + (length calls - 1))) as [s|] eqn:Hs;
          [|by replace (n + length calls - 1) with (n + (length calls - 1))
               in Hlast by lia; rewrite Hs in Hlast].
        rewrite (sockets_after_connect_old key new w' _ s Hs).
        rewrite decide_True by (rewrite Hreg; f_equal; lia).
        replace (n + length calls - 1) with (n + (length calls - 1)) in Hlast by lia.
        rewrite Hs in Hlast. cbn in Hlast. injection Hlast as Hr.
        cbn. by rewrite Hr.
      * specialize (Hprev i ltac:(lia)).
        destruct (sockets w' !! (n + i)) as [s|] eqn:Hs; [|done].
        rewrite (sockets_after_connect_old key new w' _ s Hs).
        rewrite decide_False by (rewrite Hreg; intros [= ?]; lia).
        exact Hprev.
Qed.

(** Frames that [JSON.parse] rejects change the console only. *)
Lemma run_malformed w ws s bads :
  sockets w !! ws = Some s → readyState s = OPEN →
  Forall (λ raw, ∃ e, JSON_parse raw = Throws e) bads →
  ∃ lines,
    run JSON_parse ((λ raw, Deliver (message_event ws raw)) <$> bads) w
    = mkWorld (api w) (sockets w) (output w ++ lines)
    ∧ Forall is_console lines.
Proof.
  intros Hs Hopen Hbads. revert w Hs.
  induction Hbads as [|raw bads [e He] _ IH]; intros w Hs.
  - exists []. rewrite app_nil_r. by destruct w.
  - cbn [fmap list_fmap]. rewrite run_cons. cbn [perform].
    rewrite (dispatch_message w ws s raw Hs Hopen).
    rewrite (onmessage_malformed _ raw e w He). cbn [snd].
    edestruct IH as (lines & -> & Hlines); [exact Hs|].
    cbn [api sockets output]. rewrite <- app_assoc.
    eexists. split; [reflexivity|].
    apply Forall_app. split; [|done]. by repeat constructor.
Qed.

(** C2.  Frames that fail to decode neither close the socket they arrive
    on nor touch the registry, and a well-formed frame (one that parses to
    a value with a readable [data] property) that follows them on the same
    socket is still handed to the [onUpdate] callback of that socket. *)
Theorem malformed_frames_keep_the_channel w ws s bads good m d :
  sockets w !! ws = Some s → readyState s = OPEN →
  Forall (λ raw, ∃ e, JSON_parse raw = Throws e) bads →
  JSON_parse good = Normal m → Js.get m "data" = Normal d →
  sockets (run JSON_parse ((λ raw, Deliver (message_event ws raw)) <$> bads) w) = sockets w
  ∧ api (run JSON_parse ((λ raw, Deliver (message_event ws raw)) <$> bads) w) = api w
  ∧ ∃ before after,
      output (run JSON_parse (((λ raw, Deliver (message_event ws raw)) <$> bads)
                     ++ [Deliver (message_event ws good)]) w)
      = (output (run JSON_parse ((λ raw, Deliver (message_event ws raw)) <$> bads) w)
           ++ before ++ [onUpdate_call (onUpdate (handlers s)) (Js.or d m)] ++ after)%list.
Proof.
  intros Hs Hopen Hbads Hgood Hdata.
  destruct (run_malformed w ws s bads Hs Hopen Hbads) as (lines & Hrun & _).
  rewrite run_app, Hrun. cbn [sockets api output].
  split; [done|]. split; [done|].
  rewrite run_cons, run_nil. cbn [perform].
  rewrite (dispatch_message _ ws s good) by done.
  destruct (onmessage_parsed (handlers s) good m d
              (mkWorld (api w) (sockets w) (output w ++ lines)) Hgood Hdata)
    as (line1 & line2 & after & -> & _).
  cbn [snd output]. by exists [line1; line2], after.
Qed.


(** C4, as amended.  The handler never compares the [paper_id] and the
    [version] of a frame with the key of the socket: every frame that
    parses to a value [m] with a readable [data] property has
    [m.data || m] handed to [onUpdate], whatever [m.paper_id] and
    [m.version] are; [onUpdate] is the only callback called, and the
    socket and the registry stay as they were. *)
Theorem parsed_frame_reaches_onUpdate_whatever_its_key w ws s raw m d :
  sockets w !! ws = Some s → readyState s = OPEN →
  JSON_parse raw = Normal m → Js.get m "data" = Normal d →
  ∃ before after,
    perform JSON_parse (Deliver (message_event ws raw)) w
    = mkWorld (api w) (sockets w)
        (output w ++ before
           ++ [onUpdate_call (onUpdate (handlers s)) (Js.or d m)] ++ after)
    ∧ Forall is_console before ∧ Forall is_console after.
Proof.
  intros Hs Hopen Hm Hd. cbn [perform].
  rewrite (dispatch_message w ws s raw Hs Hopen).
  destruct (onmessage_parsed (handlers s) raw m d w Hm Hd)
    as (line1 & line2 & after & -> & H1 & H2 & Hafter & _).
  exists [line1; line2], after. cbn [snd]. split; [done|]. split; [|done].
  by repeat constructor.
Qed.

(** C9.  A frame that parses to an envelope [m] whose [data] is missing
    or falsy is not dropped: [onUpdate] is called with [m] itself, the
    whole envelope. *)
Theorem falsy_data_hands_over_the_envelope w ws s raw m d :
  sockets w !! ws = Some s → readyState s = OPEN →
  JSON_parse raw = Normal m → Js.get m "data" = Normal d → Js.truthy d = false →
  ∃ before after,
    output (perform JSON_parse (Deliver (message_event ws raw)) w)
    = (output w ++ before ++ [onUpdate_call (onUpdate (handlers s)) m] ++ after)%list
    ∧ Forall is_console before ∧ Forall is_console after.
Proof.
  intros Hs Hopen Hm Hd Hfalsy. cbn [perform].
  rewrite (dispatch_message w ws s raw Hs Hopen).
  destruct (onmessage_parsed (handlers s) raw m d w Hm Hd)
    as (line1 & line2 & after & -> & H1 & H2 & Hafter & _).
  exists [line1; line2], after. cbn [snd output].
  unfold Js.or. rewrite Hfalsy. split; [done|]. split; [|done].
  by repeat constructor.
Qed.

End ApiService_facts.

(** ** The metadata map of HomeService *)

Section HomeService_facts.

Context {ArxivMetadata FeaturedImage : Type}.

Implicit Types this : HomeService ArxivMetadata FeaturedImage.

(** The metadata the local history has for [id]: [paperData?.metadata]. *)
Definition local this (id : string) : option ArxivMetadata :=
  getPaperData (historyService (sp this)) id ≫= metadata.

(** What one turn of the loop may change: the metadata map, nothing else. *)
Definition same_but_map this this' : Prop :=
  sp this' = sp this
  ∧ collections this' = collections this
  ∧ hasLoadedCollections this' = hasLoadedCollections this
  ∧ isLoadingCollections this' = isLoadingCollections this
  ∧ paperToFeaturedImageMap this' = paperToFeaturedImageMap this
  ∧ currentCollection this' = currentCollection this
  ∧ showUploadDialog this' = showUploadDialog this.

Lemma same_but_map_refl this : same_but_map this this.
Proof. by repeat split. Qed.

Lemma same_but_map_trans a b c :
  same_but_map a b → same_but_map b c → same_but_map a c.
Proof.
  unfold same_but_map. intros (?&?&?&?&?&?&?) (?&?&?&?&?&?&?).
  repeat split; congruence.
Qed.

Lemma loadMetadata_body_frame forceReload this out id :
  same_but_map this (loadMetadata_body forceReload (this, out) id).1.
Proof.
  unfold loadMetadata_body.
  destruct (_ || _); [apply same_but_map_refl|].
  destruct (_ ≫= _); simpl; by repeat split.
Qed.

Lemma foldl_loadMetadata_frame forceReload ids st :
  same_but_map st.1 (foldl (loadMetadata_body forceReload) st ids).1.
Proof.
  revert st. induction ids as [|id ids IH]; intros [this out].
  - apply same_but_map_refl.
  - change (foldl (loadMetadata_body forceReload) (this, out) (id :: ids))
      with (foldl (loadMetadata_body forceReload)
              (loadMetadata_body forceReload (this, out) id) ids).
    pose proof (loadMetadata_body_frame forceReload this out id) as Hbody.
    destruct (loadMetadata_body forceReload (this, out) id) as [this1 out1].
    eapply same_but_map_trans; [exact Hbody|]. apply (IH (this1, out1)).
Qed.

Lemma loadMetadata_frame ids forceReload this :
  same_but_map this (loadMetadata ids forceReload this).1.
Proof. apply (foldl_loadMetadata_frame forceReload ids (this, [])). Qed.

(** The entry of [id] after the loop: the local metadata when [id] was
    asked for, is not empty, was missing or is reloaded, and the local
    history has it; the entry it had before in every other case. *)
Definition entry_after (ids : list string) (forceReload : bool)
    this (id : string) : option ArxivMetadata :=
  match local this id with
  | Some m =>
      if bool_decide (id ∈ ids) && negb (String.eqb id EmptyString)
         && (forceReload || bool_decide (paperToMetadataMap this !! id = None))
      then Some m
      else paperToMetadataMap this !! id
  | None => paperToMetadataMap this !! id
  end.

Lemma entry_after_nil forceReload this id :
  entry_after [] forceReload this id = paperToMetadataMap this !! id.
Proof. unfold entry_after. by destruct (local this id). Qed.

Lemma loadMetadata_body_lookup forceReload this out a id :
  paperToMetadataMap (loadMetadata_body forceReload (this, out) a).1 !! id
  = entry_after [a] forceReload this id.
Proof.
  unfold entry_after, local.
  rewrite (bool_decide_ext (id ∈ [a]) (id = a)) by set_solver.
  destruct (decide (id = a)) as [->|Hne].
  - unfold loadMetadata_body.
    rewrite (bool_decide_eq_true_2 (a = a)) by done.
    destruct (String.eqb a EmptyString) eqn:Ea; cbn [orb negb andb].
    { by destruct (_ ≫= _). }
    destruct (paperToMetadataMap this !! a) as [old|] eqn:Hold.
    + rewrite (bool_decide_eq_true_2 (is_Some (Some old))) by eauto.
      rewrite (bool_decide_eq_false_2 (Some old = None)) by done.
      destruct forceReload; cbn [orb negb andb].
      * destruct (_ ≫= _); cbn; [by rewrite lookup_insert_eq|done].
      * cbn. rewrite Hold. by destruct (_ ≫= _).
    + rewrite (bool_decide_eq_false_2 (is_Some None)) by (by intros [? ?]).
      rewrite (bool_decide_eq_true_2 (None = None)) by done.
      rewrite orb_true_r. cbn [orb negb andb].
      destruct (_ ≫= _); cbn; [by rewrite lookup_insert_eq|done].
  - rewrite (bool_decide_eq_false_2 (id = a)) by done. cbn [andb].
    assert (paperToMetadataMap (loadMetadata_body forceReload (this, out) a).1 !! id
            = paperToMetadataMap this !! id) as Hsame.
    { unfold loadMetadata_body. destruct (_ || _); [done|].
      destruct (_ ≫= _); cbn; [by rewrite lookup_insert_ne|done]. }
    rewrite Hsame. by destruct (getPaperData _ id ≫= metadata).
Qed.

Lemma entry_after_cons forceReload a ids this this1 id :
  sp this1 = sp this →
  (∀ i, paperToMetadataMap this1 !! i = entry_after [a] forceReload this i) →
  entry_after ids forceReload this1 id = entry_after (a :: ids) forceReload this id.
Proof.
  intros Hsp Hmap. unfold entry_after at 1. rewrite Hmap.
  unfold entry_after, local. rewrite Hsp.
  destruct (getPaperData (historyService (sp this)) id ≫= metadata) as [m|]; [|done].
  rewrite (bool_decide_ext (id ∈ a :: ids) (id ∈ [a] ∨ id ∈ ids)) by set_solver.
  rewrite bool_decide_or.
  destruct (bool_decide (id ∈ [a])), (bool_decide (id ∈ ids)),
    (String.eqb id EmptyString), forceReload;
    cbn [orb negb andb]; try done.
  all: destruct (paperToMetadataMap this !! id) as [old|] eqn:Hold;
    rewrite ?(bool_decide_eq_false_2 (Some _ = None)) by done;
    rewrite ?(bool_decide_eq_true_2 (None = None)) by done;
    cbn [orb negb andb]; rewrite ?Hold; try done.
  all: rewrite ?(bool_decide_eq_false_2 (Some _ = None)) by done;
    rewrite ?(bool_decide_eq_true_2 (None = None)) by done; done.
Qed.

Lemma foldl_loadMetadata_lookup forceReload ids this out id :
  paperToMetadataMap (foldl (loadMetadata_body forceReload) (this, out) ids).1 !! id
  = entry_after ids forceReload this id.
Proof.
  revert this out. induction ids as [|a ids IH]; intros this out.
  - by rewrite entry_after_nil.
  - change (foldl (loadMetadata_body forceReload) (this, out) (a :: ids))
      with (foldl (loadMetadata_body forceReload)
              (loadMetadata_body forceReload (this, out) a) ids).
    pose proof (loadMetadata_body_frame forceReload this out a) as (Hsp & _).
    pose proof (loadMetadata_body_lookup forceReload this out a) as Hmap.
    destruct (loadMetadata_body forceReload (this, out) a) as [this1 out1].
    rewrite IH. by apply entry_after_cons.
Qed.

Lemma loadMetadata_lookup ids forceReload this id :
  paperToMetadataMap (loadMetadata ids forceReload this).1 !! id
  = entry_after ids forceReload this id.
Proof. apply foldl_loadMetadata_lookup. Qed.

Lemma foldl_loadMetadata_prints forceReload ids this out :
  Forall is_console_log out →
  Forall is_console_log (foldl (loadMetadata_body forceReload) (this, out) ids).2.
Proof.
  revert this out. induction ids as [|a ids IH]; intros this out Hout; [done|].
  change (foldl (loadMetadata_body forceReload) (this, out) (a :: ids))
    with (foldl (loadMetadata_body forceReload)
            (loadMetadata_body forceReload (this, out) a) ids).
  assert (Forall is_console_log (loadMetadata_body forceReload (this, out) a).2) as H1.
  { unfold loadMetadata_body. destruct (_ || _); [done|].
    destruct (_ ≫= _); cbn; apply Forall_app; split; try done;
      by apply Forall_singleton. }
  destruct (loadMetadata_body forceReload (this, out) a) as [this1 out1].
  by apply IH.
Qed.

(** The line [loadMetadata] prints when it skips the fetch of [id]. *)
Definition skipping_line (id : string) : Output :=
  console_log
    ("[HomeService] Skipping Firebase metadata fetch for " ++ id
       ++ " (use API backend instead)") [].

Lemma length_append (s t : string) :
  String.length (s ++ t) = String.length s + String.length t.
Proof.
  induction s as [|c s IH]; [done|].
  change (S (String.length (s ++ t)) = S (String.length s + String.length t)).
  by rewrite IH.
Qed.

Lemma append_cancel_r (x y t : string) : x ++ t = y ++ t → x = y.
Proof.
  revert y. induction x as [|c x IH]; intros [|d y] H.
  - done.
  - apply (f_equal String.length) in H.
    change (String.length t = S (String.length (y ++ t))) in H.
    rewrite length_append in H. lia.
  - apply (f_equal String.length) in H.
    change (S (String.length (x ++ t)) = String.length t) in H.
    rewrite length_append in H. lia.
  - change (String c (x ++ t) = String d (y ++ t)) in H.
    injection H as -> H. f_equal. by apply IH.
Qed.

Lemma skipping_line_inj (a b : string) : skipping_line a = skipping_line b → a = b.
Proof.
  unfold skipping_line. intros [= H].
  by apply (append_cancel_r a b " (use API backend instead)").
Qed.

(** One turn of the loop keeps what was printed and prints at most one
    line, about the id of that turn. *)
Lemma loadMetadata_body_prints forceReload this out a :
  (loadMetadata_body forceReload (this, out) a).2 = out
  ∨ (loadMetadata_body forceReload (this, out) a).2
    = (out ++ [console_log ("[HomeService] Loaded metadata for " ++ a
                              ++ " from local storage") []])%list
  ∨ (loadMetadata_body forceReload (this, out) a).2 = (out ++ [skipping_line a])%list.
Proof.
  unfold loadMetadata_body. destruct (_ || _); [by left|].
  destruct (_ ≫= _); cbn; [right; by left|right; by right].
Qed.

Lemma foldl_loadMetadata_keeps_lines forceReload ids this out line :
  line ∈ out → line ∈ (foldl (loadMetadata_body forceReload) (this, out) ids).2.
Proof.
  revert this out. induction ids as [|a ids IH]; intros this out Hline; [done|].
  change (foldl (loadMetadata_body forceReload) (this, out) (a :: ids))
    with (foldl (loadMetadata_body forceReload)
            (loadMetadata_body forceReload (this, out) a) ids).
  pose proof (loadMetadata_body_prints forceReload this out a) as Hout.
  destruct (loadMetadata_body forceReload (this, out) a) as [this1 out1].
  apply IH. cbn in Hout. destruct Hout as [->|[->| ->]]; set_solver.
Qed.

(** The skip is printed for an id that the history lacks, unless the id is
    passed over because the map has it and no reload is asked. *)
Lemma foldl_loadMetadata_prints_the_skip forceReload ids this out id :
  id ∈ ids → id ≠ EmptyString → local this id = None →
  forceReload || bool_decide (paperToMetadataMap this !! id = None) = true →
  skipping_line id ∈ (foldl (loadMetadata_body forceReload) (this, out) ids).2.
Proof.
  intros Hin Hne. revert this out.
  induction ids as [|a ids IH]; intros this out Hlocal Hcond; [by apply elem_of_nil in Hin|].
  change (foldl (loadMetadata_body forceReload) (this, out) (a :: ids))
    with (foldl (loadMetadata_body forceReload)
            (loadMetadata_body forceReload (this, out) a) ids).
  destruct (decide (id = a)) as [<-|Hna].
  - assert ((loadMetadata_body forceReload (this, out) id).2
            = (out ++ [skipping_line id])%list) as Hstep.
    { unfold loadMetadata_body. apply String.eqb_neq in Hne. rewrite Hne.
      assert (bool_decide (is_Some (paperToMetadataMap this !! id)) && negb forceReload
              = false) as ->.
      { destruct forceReload; [apply andb_false_r|]. cbn in Hcond.
        apply bool_decide_eq_true in Hcond. rewrite Hcond.
        by rewrite (bool_decide_eq_false_2 (is_Some None)) by (by intros [? ?]). }
      cbn [orb]. unfold local in Hlocal. by rewrite Hlocal. }
    destruct (loadMetadata_body forceReload (this, out) id) as [this1 out1].
    cbn in Hstep. subst out1. apply foldl_loadMetadata_keeps_lines. set_solver.
  - pose proof (loadMetadata_body_frame forceReload this out a) as (Hsp & _).
    pose proof (loadMetadata_body_lookup forceReload this out a id) as Hmap.
    destruct (loadMetadata_body forceReload (this, out) a) as [this1 out1].
    cbn in Hsp, Hmap. apply IH.
    + set_solver.
    + unfold local. rewrite Hsp. exact Hlocal.
    + rewrite Hmap. unfold entry_after. by rewrite Hlocal.
Qed.

(** Nothing is printed about the skip of an id that the map has, when no
    reload is asked. *)
Lemma foldl_loadMetadata_passes_over ids this out id m :
  paperToMetadataMap this !! id = Some m →
  skipping_line id ∉ out →
  skipping_line id ∉ (foldl (loadMetadata_body false) (this, out) ids).2.
Proof.
  revert this out. induction ids as [|a ids IH]; intros this out Hm Hout; [done|].
  change (foldl (loadMetadata_body false) (this, out) (a :: ids))
    with (foldl (loadMetadata_body false) (loadMetadata_body false (this, out) a) ids).
  assert (paperToMetadataMap (loadMetadata_body false (this, out) a).1 !! id = Some m
          ∧ skipping_line id ∉ (loadMetadata_body false (this, out) a).2) as [Hm1 Hout1].
  { unfold loadMetadata_body.
    destruct (decide (a = id)) as [->|Hna].
    - rewrite Hm. rewrite (bool_decide_eq_true_2 (is_Some (Some m))) by eauto.
      cbn [negb andb]. by rewrite orb_true_r.
    - destruct (_ || _); [done|].
      destruct (_ ≫= _); cbn.
      + split; [by rewrite lookup_insert_ne|].
        intros [Hin|Hin%list_elem_of_singleton]%elem_of_app; [done|].
        unfold skipping_line in Hin. discriminate.
      + split; [done|].
        intros [Hin|Hin%list_elem_of_singleton]%elem_of_app; [done|].
        apply Hna. symmetry. by apply skipping_line_inj. }
  destruct (loadMetadata_body false (this, out) a) as [this1 out1].
  by apply (IH this1 out1).
Qed.

(** C5, as amended.  [loadMetadata] reads the local history and nothing
    else.  For an id of the list that is not the empty string: when the
    history has metadata for it, the map ends with them if the id was
    missing from the map or [forceReload] is set, and with the entry it
    already had otherwise; when the history lacks the id, its entry is
    left as it was, and the line that tells of the skipped fetch is
    printed if the id was missing from the map or [forceReload] is set,
    and not printed otherwise (the id is passed over before it).  The
    method only prints: it is synchronous and sends no request. *)
Theorem loadMetadata_reads_local_history_only ids forceReload this id :
  id ∈ ids → id ≠ EmptyString →
  match local this id with
  | Some m =>
      paperToMetadataMap (loadMetadata ids forceReload this).1 !! id
      = if forceReload || bool_decide (paperToMetadataMap this !! id = None)
        then Some m else paperToMetadataMap this !! id
  | None =>
      paperToMetadataMap (loadMetadata ids forceReload this).1 !! id
      = paperToMetadataMap this !! id
      ∧ if forceReload || bool_decide (paperToMetadataMap this !! id = None)
        then skipping_line id ∈ (loadMetadata ids forceReload this).2
        else skipping_line id ∉ (loadMetadata ids forceReload this).2
  end
  ∧ Forall is_console_log (loadMetadata ids forceReload this).2.
Proof.
  intros Hin Hne. split.
  - rewrite loadMetadata_lookup. unfold entry_after.
    destruct (local this id) as [m|] eqn:Hlocal.
    + rewrite (bool_decide_eq_true_2 (id ∈ ids)) by done.
      apply String.eqb_neq in Hne. by rewrite Hne.
    + split; [done|].
      destruct (forceReload || bool_decide (paperToMetadataMap this !! id = None))
        eqn:Hcond.
      * by apply foldl_loadMetadata_prints_the_skip.
      * apply orb_false_elim in Hcond as [-> Hsome].
        apply bool_decide_eq_false in Hsome.
        destruct (paperToMetadataMap this !! id) as [m|] eqn:Hm; [|done].
        apply (foldl_loadMetadata_passes_over ids this [] id m Hm).
        apply not_elem_of_nil.
  - by apply foldl_loadMetadata_prints.
Qed.

(** C7.  [loadMetadata] leaves the local store as it was; an id for which
    the local history has no metadata (the remote fetch is skipped) keeps
    the entry it had, present or missing; every entry of the map after the
    call is a metadata object that was in the map before or that the local
    history holds; and no entry is ever removed. *)
Theorem loadMetadata_keeps_cache_sound ids forceReload this :
  sp (loadMetadata ids forceReload this).1 = sp this
  ∧ (∀ id, local this id = None →
           paperToMetadataMap (loadMetadata ids forceReload this).1 !! id
           = paperToMetadataMap this !! id)
  ∧ (∀ id m, paperToMetadataMap (loadMetadata ids forceReload this).1 !! id = Some m →
             paperToMetadataMap this !! id = Some m ∨ local this id = Some m)
  ∧ (∀ id, is_Some (paperToMetadataMap this !! id) →
           is_Some (paperToMetadataMap (loadMetadata ids forceReload this).1 !! id)).
Proof.
  split; [apply loadMetadata_frame|].
  split; [|split]; intros id.
  - intros Hl. rewrite loadMetadata_lookup. unfold entry_after. by rewrite Hl.
  - intros m. rewrite loadMetadata_lookup. unfold entry_after.
    destruct (local this id) as [m'|]; [|by left].
    destruct (_ && _); [|by left]. intros [= ->]. by right.
  - rewrite loadMetadata_lookup. unfold entry_after.
    destruct (local this id) as [m'|]; [|done].
    destruct (_ && _); [eauto|done].
Qed.

Variable paperId : ArxivMetadata → option string.

(** C10.  After [setCurrentCollection] the field [currentCollection] is
    undefined and so is what the getter [currentCollectionId] returns,
    whatever id was passed; the state and the output reached do not depend
    on that id. *)
Theorem setCurrentCollection_ignores_its_argument currentCollectionId0 this :
  currentCollection (setCurrentCollection paperId currentCollectionId0 this).1 = None
  ∧ currentCollectionId (setCurrentCollection paperId currentCollectionId0 this).1 = None
  ∧ ∀ other, setCurrentCollection paperId other this
             = setCurrentCollection paperId currentCollectionId0 this.
Proof.
  assert (currentCollection (setCurrentCollection paperId currentCollectionId0 this).1
          = None) as Hnone.
  { unfold setCurrentCollection.
    pose proof (loadMetadata_frame
                  (omap (λ item, metadata item ≫= paperId)
                     (getPaperHistory (historyService (sp (set_currentCollection None this)))))
                  false (set_currentCollection None this)) as (_&_&_&_&_&Hc&_).
    destruct (loadMetadata _ false (set_currentCollection None this)) as [this1 out1].
    exact Hc. }
  split; [exact Hnone|]. split; [|done].
  unfold currentCollectionId. by rewrite Hnone.
Qed.

End HomeService_facts.

(** ** The entry points and the ids they are given *)

Section entry_points.

Variable JSON_parse : string → Completion JsValue.
Variable JSON_stringify : JsValue → string.

Lemma first_request_fetchApi_get this endpoint {A} (k : Response → Async A) :
  first_request (then_ (fetchApi JSON_parse this endpoint None) k)
  = Some (mkRequest (baseUrl this ++ endpoint) None
            [("Content-Type", "application/json")] None).
Proof. reflexivity. Qed.

Lemma first_request_fetchApi_post this endpoint body parsed {A} (k : Response → Async A) :
  JSON_parse body = Normal parsed →
  first_request
    (then_ (fetchApi JSON_parse this endpoint
              (Some (mkRequestInit (Some "POST") (Some body)))) k)
  = Some (mkRequest (baseUrl this ++ endpoint) (Some "POST")
            [("Content-Type", "application/json")] (Some body)).
Proof.
  intros Hparse. unfold fetchApi. cbn [mbind option_bind init_body init_method].
  destruct (String.eqb body EmptyString); [reflexivity|].
  rewrite Hparse. reflexivity.
Qed.

(** C6, as amended.  No entry point checks that its ids are not empty.
    For a call with an empty [arxivId] or an empty [version] the input is
    not rejected: when the constructor accepts the URL built from the ids
    (it has no fragment), [connectDocumentSocket] returns a new connecting
    socket for that URL and registers it under [arxivId_version], and
    [requestPaperImport], [getImportStatus] and [getDocument] send their
    request, with the ids as given in the body or in the path.  (The
    second hypothesis says that the request body of [requestPaperImport],
    which [fetchApi] parses back for its log, is valid JSON.) *)
Theorem entry_points_proceed_on_empty_ids
    this w arxivId version onUpdate onError :
  arxivId = EmptyString ∨ version = EmptyString →
  (∃ parsed,
      JSON_parse (JSON_stringify (JObj [("arxiv_id", JStr arxivId)])) = Normal parsed) →
  URL_has_fragment (wsUrl (api w) ++ "/ws/" ++ arxivId ++ "/" ++ version) = false →
  ((connectDocumentSocket arxivId version onUpdate onError w).1
     = Normal (length (sockets w))
   ∧ websockets (api (connectDocumentSocket arxivId version onUpdate onError w).2)
       !! (arxivId ++ "_" ++ version) = Some (length (sockets w))
   ∧ sockets (connectDocumentSocket arxivId version onUpdate onError w).2
       !! length (sockets w)
     = Some (mkWebSocket (wsUrl (api w) ++ "/ws/" ++ arxivId ++ "/" ++ version)
               CONNECTING
               (mkClosure arxivId version (arxivId ++ "_" ++ version)
                  onUpdate onError)))
  ∧ first_request
      (api_callables.requestArxivDocImportCallable JSON_parse JSON_stringify
         this arxivId)
    = Some (mkRequest (baseUrl this ++ "/api/papers/import") (Some "POST")
              [("Content-Type", "application/json")]
              (Some (JSON_stringify (JObj [("arxiv_id", JStr arxivId)]))))
  ∧ first_request (api_callables.getImportStatus JSON_parse this arxivId version)
    = Some (mkRequest
              (baseUrl this ++ "/api/papers/status/" ++ arxivId ++ "/" ++ version)
              None [("Content-Type", "application/json")] None)
  ∧ first_request (api_callables.getDocument JSON_parse this arxivId version)
    = Some (mkRequest
              (baseUrl this ++ "/api/documents/" ++ arxivId ++ "/" ++ version)
              None [("Content-Type", "application/json")] None).
Proof.
  intros _ [parsed Hparse] _. split; [|split; [|split]].
  - destruct (connectDocumentSocket_spec arxivId version onUpdate onError w)
      as (lines & -> & _).
    cbn [fst snd api websockets sockets].
    split; [done|]. split; [apply lookup_insert_eq|].
    apply sockets_after_connect_new.
  - unfold api_callables.requestArxivDocImportCallable, requestPaperImport.
    cbn [print then_ first_request].
    by rewrite (first_request_fetchApi_post _ _ _ parsed).
  - unfold api_callables.getImportStatus, getImportStatus.
    by rewrite first_request_fetchApi_get.
  - unfold api_callables.getDocument, getDocument.
    cbn [print then_ first_request].
    by rewrite first_request_fetchApi_get.
Qed.

End entry_points.

(** * Worked scenarios *)

(** A runtime for the scenarios: [sample_stringify] and [sample_parse]
    agree with [JSON.stringify] and [JSON.parse] on the values and texts
    that the scenarios use. *)

Definition dquote : string := String (Ascii.ascii_of_nat 34) EmptyString.

Definition quoted (s : string) : string := dquote ++ s ++ dquote.

Definition sample_stringify (v : JsValue) : string :=
  match v with
  | JObj [(k, JStr s)] => "{" ++ quoted k ++ ":" ++ quoted s ++ "}"
  | _ => "null"
  end.

(** A data frame for paper Y, version v2. *)
Definition frame_for_Y : string :=
  "{" ++ quoted "paper_id" ++ ":" ++ quoted "Y" ++ ","
      ++ quoted "version" ++ ":" ++ quoted "v2" ++ ","
      ++ quoted "type" ++ ":" ++ quoted "data" ++ ","
      ++ quoted "data" ++ ":{" ++ quoted "title" ++ ":" ++ quoted "T" ++ "}}".

Definition message_for_Y : JsValue :=
  JObj [("paper_id", JStr "Y"); ("version", JStr "v2"); ("type", JStr "data");
        ("data", JObj [("title", JStr "T")])].

(** A status frame for paper X, version v1, with no [data]. *)
Definition frame_without_data : string :=
  "{" ++ quoted "paper_id" ++ ":" ++ quoted "X" ++ ","
      ++ quoted "version" ++ ":" ++ quoted "v1" ++ ","
      ++ quoted "type" ++ ":" ++ quoted "status" ++ "}".

Definition message_without_data : JsValue :=
  JObj [("paper_id", JStr "X"); ("version", JStr "v1"); ("type", JStr "status")].

Definition sample_parse (text : string) : Completion JsValue :=
  if String.eqb text frame_for_Y then Normal message_for_Y
  else if String.eqb text frame_without_data then Normal message_without_data
  else if String.eqb text (sample_stringify (JObj [("arxiv_id", JStr EmptyString)]))
  then Normal (JObj [("arxiv_id", JStr EmptyString)])
  else Throws (JError "SyntaxError" (JStr text)).

Definition sample_onUpdate : Callback := mkCallback "onUpdate" (λ _, false).
Definition sample_onError : Callback := mkCallback "onError" (λ _, false).

Definition development : Environment :=
  mkEnvironment "development" "http://localhost:4201" "localhost:4201".

(** The service right after its construction, with a silent console. *)
Definition fresh : World := mkWorld (api (boot development)) [] [].

(** One socket for paper X, version v1, connected. *)
Definition connected : World :=
  run sample_parse
    [Connect "X" "v1" sample_onUpdate (Some sample_onError); Deliver (open_event 0)]
    fresh.

Definition socket_X : WebSocket :=
  mkWebSocket "ws://localhost:8001/ws/X/v1" OPEN
    (mkClosure "X" "v1" "X_v1" sample_onUpdate (Some sample_onError)).

(** The calls of consumer callbacks among some outputs. *)
Definition callback_calls (out : list Output) : list Output :=
  List.filter (λ o, match o with
                    | onUpdate_call _ _ | onError_call _ _ => true
                    | console_log _ _ | console_error _ _ => false
                    end) out.

Lemma connected_socket : sockets connected !! 0 = Some socket_X.
Proof. reflexivity. Qed.

(** ** Replacing a socket *)

(** Three calls for paper X, version v1, with the close event of the first
    socket delivered before the third call: the second socket is never
    closed, and the registry only knows the third. *)
Lemma replaced_socket_scenario :
  map_to_list
    (websockets
       (api (run sample_parse
               [Connect "X" "v1" sample_onUpdate (Some sample_onError);
                Connect "X" "v1" sample_onUpdate (Some sample_onError);
                Deliver (connection_closed 0 None (mkCloseEvent 1000 EmptyString true));
                Connect "X" "v1" sample_onUpdate (Some sample_onError)] fresh)))
  = [("X_v1", 2)]
  ∧ readyState <$>
      sockets (run sample_parse
                 [Connect "X" "v1" sample_onUpdate (Some sample_onError);
                  Connect "X" "v1" sample_onUpdate (Some sample_onError);
                  Deliver (connection_closed 0 None (mkCloseEvent 1000 EmptyString true));
                  Connect "X" "v1" sample_onUpdate (Some sample_onError)] fresh)
    = [CLOSED; CONNECTING; CONNECTING].
Proof. split; reflexivity. Qed.

(** The same three calls with no event in between: each earlier socket has
    been asked to close. *)
Lemma replacement_without_events_scenario :
  map_to_list
    (websockets
       (api (run sample_parse
               [Connect "X" "v1" sample_onUpdate (Some sample_onError);
                Connect "X" "v1" sample_onUpdate (Some sample_onError);
                Connect "X" "v1" sample_onUpdate (Some sample_onError)] fresh)))
  = [("X_v1", 2)]
  ∧ readyState <$>
      sockets (run sample_parse
                 [Connect "X" "v1" sample_onUpdate (Some sample_onError);
                  Connect "X" "v1" sample_onUpdate (Some sample_onError);
                  Connect "X" "v1" sample_onUpdate (Some sample_onError)] fresh)
    = [CLOSING; CLOSING; CONNECTING].
Proof. split; reflexivity. Qed.

(** ** Frames on a connected socket *)

(** C2 on the connected socket: two malformed frames, then a status frame. *)
Lemma malformed_frames_keep_the_channel_witness :
  sockets (run sample_parse
             ((λ raw, Deliver (message_event 0 raw)) <$> ["{"; "oops"]) connected)
  = sockets connected
  ∧ api (run sample_parse
           ((λ raw, Deliver (message_event 0 raw)) <$> ["{"; "oops"]) connected)
    = api connected
  ∧ ∃ before after,
      output (run sample_parse
                (((λ raw, Deliver (message_event 0 raw)) <$> ["{"; "oops"])
                   ++ [Deliver (message_event 0 frame_without_data)]) connected)
      = (output (run sample_parse
                   ((λ raw, Deliver (message_event 0 raw)) <$> ["{"; "oops"]) connected)
           ++ before
           ++ [onUpdate_call (onUpdate (handlers socket_X))
                 (Js.or JUndefined message_without_data)]
           ++ after)%list.
Proof.
  apply (malformed_frames_keep_the_channel sample_parse connected 0 socket_X
           ["{"; "oops"] frame_without_data message_without_data JUndefined).
  - reflexivity.
  - reflexivity.
  - repeat constructor; eexists; reflexivity.
  - reflexivity.
  - reflexivity.
Defined.



(** C4 as stated fails: the socket is the one of paper X, version v1, the
    frame names paper Y, version v2, and its payload is handed to
    [onUpdate]. *)
Lemma frame_for_another_key_is_delivered :
  arxivId (handlers socket_X) = "X" ∧ version (handlers socket_X) = "v1"
  ∧ sample_parse frame_for_Y = Normal message_for_Y
  ∧ Js.get message_for_Y "paper_id" = Normal (JStr "Y")
  ∧ Js.get message_for_Y "version" = Normal (JStr "v2")
  ∧ callback_calls
      (output (run sample_parse [Deliver (message_event 0 frame_for_Y)] connected))
    = [onUpdate_call sample_onUpdate (JObj [("title", JStr "T")])].
Proof. repeat split. Qed.

Lemma parsed_frame_reaches_onUpdate_whatever_its_key_witness :
  ∃ before after,
    perform sample_parse (Deliver (message_event 0 frame_for_Y)) connected
    = mkWorld (api connected) (sockets connected)
        (output connected ++ before
           ++ [onUpdate_call (onUpdate (handlers socket_X))
                 (Js.or (JObj [("title", JStr "T")]) message_for_Y)]
           ++ after)
    ∧ Forall is_console before ∧ Forall is_console after.
Proof.
  apply (parsed_frame_reaches_onUpdate_whatever_its_key sample_parse connected 0
           socket_X frame_for_Y message_for_Y (JObj [("title", JStr "T")]));
    reflexivity.
Defined.

(** C9 on the connected socket: the status frame has no [data]. *)
Lemma falsy_data_hands_over_the_envelope_witness :
  ∃ before after,
    output (perform sample_parse (Deliver (message_event 0 frame_without_data)) connected)
    = (output connected ++ before
         ++ [onUpdate_call (onUpdate (handlers socket_X)) message_without_data]
         ++ after)%list
    ∧ Forall is_console before ∧ Forall is_console after.
Proof.
  apply (falsy_data_hands_over_the_envelope sample_parse connected 0 socket_X
           frame_without_data message_without_data JUndefined);
    reflexivity.
Defined.

(** ** Empty ids *)

(** C6 as stated fails: with an empty id and an empty version the socket
    is opened and registered, and the requests are sent. *)
Lemma empty_ids_are_not_rejected :
  (connectDocumentSocket EmptyString EmptyString sample_onUpdate None fresh).1 = Normal 0
  ∧ websockets
      (api (connectDocumentSocket EmptyString EmptyString sample_onUpdate None fresh).2)
      !! "_" = Some 0
  ∧ sockets (connectDocumentSocket EmptyString EmptyString sample_onUpdate None fresh).2
    = [mkWebSocket "ws://localhost:8001/ws//" CONNECTING
         (mkClosure EmptyString EmptyString "_" sample_onUpdate None)]
  ∧ requests (λ _, Normal (mkResponse true 200 "OK" (Normal (JObj []))))
      (api_callables.requestArxivDocImportCallable sample_parse sample_stringify
         (api fresh) EmptyString)
    = [mkRequest "http://localhost:8001/api/papers/import" (Some "POST")
         [("Content-Type", "application/json")]
         (Some (sample_stringify (JObj [("arxiv_id", JStr EmptyString)])))]
  ∧ requests (λ _, Normal (mkResponse true 200 "OK" (Normal (JObj []))))
      (api_callables.getImportStatus sample_parse (api fresh) EmptyString EmptyString)
    = [mkRequest "http://localhost:8001/api/papers/status//" None
         [("Content-Type", "application/json")] None]
  ∧ requests (λ _, Normal (mkResponse true 200 "OK" (Normal (JObj []))))
      (api_callables.getDocument sample_parse (api fresh) EmptyString EmptyString)
    = [mkRequest "http://localhost:8001/api/documents//" None
         [("Content-Type", "application/json")] None].
Proof. repeat split. Qed.

Lemma entry_points_proceed_on_empty_ids_witness :
  ((connectDocumentSocket EmptyString EmptyString sample_onUpdate None fresh).1
     = Normal (length (sockets fresh))
   ∧ websockets
       (api (connectDocumentSocket EmptyString EmptyString sample_onUpdate None fresh).2)
       !! (EmptyString ++ "_" ++ EmptyString) = Some (length (sockets fresh))
   ∧ sockets (connectDocumentSocket EmptyString EmptyString sample_onUpdate None fresh).2
       !! length (sockets fresh)
     = Some (mkWebSocket (wsUrl (api fresh) ++ "/ws/" ++ EmptyString ++ "/" ++ EmptyString)
               CONNECTING
               (mkClosure EmptyString EmptyString (EmptyString ++ "_" ++ EmptyString)
                  sample_onUpdate None)))
  ∧ first_request
      (api_callables.requestArxivDocImportCallable sample_parse sample_stringify
         (api fresh) EmptyString)
    = Some (mkRequest (baseUrl (api fresh) ++ "/api/papers/import") (Some "POST")
              [("Content-Type", "application/json")]
              (Some (sample_stringify (JObj [("arxiv_id", JStr EmptyString)]))))
  ∧ first_request
      (api_callables.getImportStatus sample_parse (api fresh) EmptyString EmptyString)
    = Some (mkRequest
              (baseUrl (api fresh) ++ "/api/papers/status/" ++ EmptyString ++ "/"
                 ++ EmptyString)
              None [("Content-Type", "application/json")] None)
  ∧ first_request
      (api_callables.getDocument sample_parse (api fresh) EmptyString EmptyString)
    = Some (mkRequest
              (baseUrl (api fresh) ++ "/api/documents/" ++ EmptyString ++ "/"
                 ++ EmptyString)
              None [("Content-Type", "application/json")] None).
Proof.
  apply (entry_points_proceed_on_empty_ids sample_parse sample_stringify
           (api fresh) fresh EmptyString EmptyString sample_onUpdate None).
  - by left.
  - eexists. reflexivity.
  - reflexivity.
Defined.

(** ** The metadata map and the local history *)

(** A local history that holds one paper, P0; a metadata object is stood
    for by its title. *)
Definition sample_history : HistoryService string :=
  mkHistoryService
    [mkPaperData (Some "Paper zero")]
    (λ id, if String.eqb id "P0" then Some (mkPaperData (Some "Paper zero")) else None).

Definition sample_home : HomeService string string :=
  HomeService_new string (mkServiceProvider sample_history).

(** C5 as stated fails: P1 is not in the local history, and after
    [loadMetadata] it is not in the map either; the method printed that it
    skipped the fetch, and did nothing else. *)
Lemma missing_paper_is_not_fetched :
  local sample_home "P1" = None
  ∧ paperToMetadataMap (loadMetadata ["P1"] false sample_home).1 !! "P1" = None
  ∧ (loadMetadata ["P1"] false sample_home).2
    = [console_log
         "[HomeService] Skipping Firebase metadata fetch for P1 (use API backend instead)"
         []].
Proof. repeat split. Qed.

Lemma loadMetadata_reads_local_history_only_witness :
  (paperToMetadataMap (loadMetadata ["P0"; "P1"] false sample_home).1 !! "P1"
   = paperToMetadataMap sample_home !! "P1"
   ∧ skipping_line "P1" ∈ (loadMetadata ["P0"; "P1"] false sample_home).2)
  ∧ Forall is_console_log (loadMetadata ["P0"; "P1"] false sample_home).2.
Proof.
  apply (loadMetadata_reads_local_history_only ["P0"; "P1"] false sample_home "P1").
  - apply list_elem_of_further, list_elem_of_here.
  - discriminate.
Defined.

(** What the two calls print: P0 is loaded and P1 skipped with a line; once
    P0 is in the map, a second call passes over it without a line. *)
Lemma loadMetadata_lines_scenario :
  (loadMetadata ["P0"; "P1"] false sample_home).2
  = [console_log "[HomeService] Loaded metadata for P0 from local storage" [];
     skipping_line "P1"]
  ∧ (loadMetadata ["P0"] false (loadMetadata ["P0"; "P1"] false sample_home).1).2 = [].
Proof. split; reflexivity. Qed.

(** * The rest of the services *)

(** ** Running a promise against the network *)

(** How an [async] function settles when the network answers every
    request with [answer]. *)
Fixpoint outcome {A} (answer : Request → Completion Response) (m : Async A)
  : Completion A :=
  match m with
  | Resolve a => Normal a
  | Reject e => Throws e
  | Print _ next => outcome answer next
  | Await_fetch request next => outcome answer (next (answer request))
  end.

(** What it prints on the way. *)
Fixpoint printed {A} (answer : Request → Completion Response) (m : Async A)
  : list Output :=
  match m with
  | Resolve _ | Reject _ => []
  | Print o next => o :: printed answer next
  | Await_fetch request next => printed answer (next (answer request))
  end.

(** ** The remaining methods of ApiService *)

Section ApiService_rest.

Variable JSON_parse : string → Completion JsValue.
Variable JSON_stringify : JsValue → string.

(** [path.startsWith('/') ? path.slice(1) : path]. *)
Definition cleanPath (path : string) : string :=
  if String.prefix "/" path
  then match path with
       | String _ rest => rest
       | EmptyString => EmptyString
       end
  else path.

Definition getDownloadUrl (this : ApiService) (path : string) : Async string :=
  Resolve (baseUrl this ++ "/files/" ++ cleanPath path).

(** An API key is a string or [null]. *)
Definition api_key (apiKey : option string) : JsValue :=
  match apiKey with
  | Some key => JStr key
  | None => JNull
  end.

(** The properties read below ([query], [highlight], [metadata],
    [paperId], [id]) are of the kind [Js.get] covers. *)
Definition getAnswer (this : ApiService) (doc request : JsValue) (apiKey : option string)
  : Async JsValue :=
  (print (console_log "[API] Requesting answer:"
            [("query",
              Js.or (Js.or (Js.opt_get request "query") (Js.opt_get request "highlight"))
                    (JStr "N/A"));
             ("hasApiKey", JBool (Js.truthy (api_key apiKey)));
             ("docId", Js.opt_get (Js.opt_get doc "metadata") "paperId")]) ;;
   response <- fetchApi JSON_parse this "/api/queries/answer"
                 (Some (mkRequestInit (Some "POST")
                          (Some (JSON_stringify
                                   (JObj [("doc", doc); ("request", request);
                                          ("api_key", api_key apiKey)]))))) ;;
   result <- settle (json response) ;;
   print (console_log "[API] Answer response received:"
            [("hasResponse", JBool (Js.truthy result));
             ("responseId", Js.opt_get result "id")]) ;;
   Resolve result)%async.

(** [pastPapers?.length || 0] is the length of the array. *)
Definition getPersonalSummary (this : ApiService) (doc : JsValue)
    (pastPapers : list JsValue) (apiKey : option string) : Async JsValue :=
  (print (console_log "[API] Requesting personal summary:"
            [("docId", Js.opt_get (Js.opt_get doc "metadata") "paperId");
             ("pastPapersCount", number (N.of_nat (length pastPapers)));
             ("hasApiKey", JBool (Js.truthy (api_key apiKey)))]) ;;
   response <- fetchApi JSON_parse this "/api/queries/personal-summary"
                 (Some (mkRequestInit (Some "POST")
                          (Some (JSON_stringify
                                   (JObj [("doc", doc); ("past_papers", JArr pastPapers);
                                          ("api_key", api_key apiKey)]))))) ;;
   result <- settle (json response) ;;
   print (console_log "[API] Personal summary response received:"
            [("hasResponse", JBool (Js.truthy result));
             ("summaryId", Js.opt_get result "id")]) ;;
   Resolve result)%async.

(** The optional [arxivId] is [undefined] when it is left out. *)
Definition saveFeedback (this : ApiService) (feedbackText : string)
    (arxivId : option string) : Async unit :=
  (_ <- fetchApi JSON_parse this "/api/feedback"
          (Some (mkRequestInit (Some "POST")
                   (Some (JSON_stringify
                            (JObj [("user_feedback_text", JStr feedbackText);
                                   ("arxiv_id", match arxivId with
                                                | Some id => JStr id
                                                | None => JUndefined
                                                end)]))))) ;;
   Resolve ())%async.

(** *** The remaining callables of shared/api_callables.ts *)

Definition getLumiResponseCallable (apiService : ApiService) (doc request : JsValue)
    (apiKey : option string) : Async JsValue :=
  getAnswer apiService doc request apiKey.

Definition getPersonalSummaryCallable (apiService : ApiService) (doc : JsValue)
    (pastPapers : list JsValue) (apiKey : option string) : Async JsValue :=
  getPersonalSummary apiService doc pastPapers apiKey.

(** [UserFeedback] (shared/api.ts), with the two fields read here. *)
Record UserFeedback : Type := mkUserFeedback {
  userFeedbackText : string;
  feedback_arxivId : option string;
}.

Definition saveUserFeedbackCallable (apiService : ApiService) (feedback : UserFeedback)
  : Async unit :=
  saveFeedback apiService (userFeedbackText feedback) (feedback_arxivId feedback).

End ApiService_rest.

(** ** The REST helpers against the network *)

Section rest_facts.

Variable JSON_parse : string → Completion JsValue.
Variable JSON_stringify : JsValue → string.

Implicit Types (answer : Request → Completion Response) (this : ApiService).

Lemma outcome_then {A B} answer (m : Async A) (k : A → Async B) :
  outcome answer (then_ m k)
  = match outcome answer m with
    | Normal a => outcome answer (k a)
    | Throws e => Throws e
    end.
Proof. induction m as [a|e|o next IH|request next IH]; cbn; auto. Qed.

Lemma requests_then {A B} answer (m : Async A) (k : A → Async B) :
  requests answer (then_ m k)
  = (requests answer m
       ++ match outcome answer m with
          | Normal a => requests answer (k a)
          | Throws _ => []
          end)%list.
Proof.
  induction m as [a|e|o next IH|request next IH]; cbn; auto.
  by rewrite IH.
Qed.

Lemma printed_then {A B} answer (m : Async A) (k : A → Async B) :
  printed answer (then_ m k)
  = (printed answer m
       ++ match outcome answer m with
          | Normal a => printed answer (k a)
          | Throws _ => []
          end)%list.
Proof.
  induction m as [a|e|o next IH|request next IH]; cbn; auto.
  by rewrite IH.
Qed.

Lemma outcome_catch {A} answer (m : Async A) (handler : JsValue → Async A) :
  outcome answer (catch m handler)
  = match outcome answer m with
    | Normal a => Normal a
    | Throws e => outcome answer (handler e)
    end.
Proof. induction m as [a|e|o next IH|request next IH]; cbn; auto. Qed.

Lemma requests_catch {A} answer (m : Async A) (handler : JsValue → Async A) :
  requests answer (catch m handler)
  = (requests answer m
       ++ match outcome answer m with
          | Normal _ => []
          | Throws e => requests answer (handler e)
          end)%list.
Proof.
  induction m as [a|e|o next IH|request next IH]; cbn; auto.
  by rewrite IH.
Qed.

(** What [fetchApi] parses for its first log line: the body, when there is
    one that is not the empty string. *)
Definition logged_body (options : option RequestInit) : Completion JsValue :=
  match options ≫= init_body with
  | Some b => if String.eqb b EmptyString then Normal JUndefined else JSON_parse b
  | None => Normal JUndefined
  end.

(** The request [fetchApi] hands to [fetch]. *)
Definition request_of this (endpoint : string) (options : option RequestInit) : Request :=
  mkRequest (baseUrl this ++ endpoint) (options ≫= init_method)
    [("Content-Type", "application/json")] (options ≫= init_body).

(** What [fetchApi] throws for a response that is not ok. *)
Definition http_failure (response : Response) : JsValue :=
  let error :=
    match json response with
    | Normal v => v
    | Throws _ => JObj [("detail", JStr (statusText response))]
    end in
  match Js.get error "detail" with
  | Normal detail =>
      JError "Error"
        (Js.or detail
           (JStr ("HTTP " ++ pretty (status response) ++ ": " ++ statusText response)))
  | Throws e => e
  end.

Lemma fetchApi_sent this endpoint options answer parsed :
  logged_body options = Normal parsed →
  requests answer (fetchApi JSON_parse this endpoint options)
  = [request_of this endpoint options]
  ∧ outcome answer (fetchApi JSON_parse this endpoint options)
    = match answer (request_of this endpoint options) with
      | Throws e => Throws e
      | Normal response =>
          if ok response then Normal response else Throws (http_failure response)
      end.
Proof.
  unfold logged_body, fetchApi, request_of, http_failure. intros Hlog.
  assert (∃ m : Async JsValue,
            m = match options ≫= init_body with
                | Some b => if String.eqb b EmptyString then Resolve JUndefined
                            else settle (JSON_parse b)
                | None => Resolve JUndefined
                end ∧ m = Resolve parsed) as (m & Hm & ->).
  { eexists. split; [reflexivity|].
    destruct (options ≫= init_body) as [b|]; [|by injection Hlog as ->].
    destruct (String.eqb b EmptyString); [by injection Hlog as ->|].
    by rewrite Hlog. }
  rewrite <- Hm. cbn [then_ print requests outcome].
  rewrite requests_catch, outcome_catch. cbn [then_ requests outcome].
  destruct (answer _) as [response|e]; cbn [settle then_ requests outcome].
  - destruct (ok response); cbn [negb print then_ requests outcome]; [done|].
    rewrite !outcome_then, !requests_then.
    destruct (Js.get _ "detail") as [detail|e]; cbn; done.
  - done.
Qed.

Lemma fetchApi_not_sent this endpoint options answer e :
  logged_body options = Throws e →
  requests answer (fetchApi JSON_parse this endpoint options) = []
  ∧ printed answer (fetchApi JSON_parse this endpoint options) = []
  ∧ outcome answer (fetchApi JSON_parse this endpoint options) = Throws e.
Proof.
  unfold logged_body, fetchApi. intros Hlog.
  destruct (options ≫= init_body) as [b|]; [|discriminate].
  destruct (String.eqb b EmptyString); [discriminate|].
  by rewrite Hlog.
Qed.

(** X1.  When the body it is given can be logged, [fetchApi] sends exactly
    one request, for [baseUrl + endpoint] with the JSON content type, and
    never a second one; it resolves, with the response itself, exactly
    when the network answers with a response that is ok, and a rejection
    of [fetch] is passed on unchanged. *)
Theorem fetchApi_sends_once_and_resolves_on_ok this endpoint options answer parsed :
  logged_body options = Normal parsed →
  requests answer (fetchApi JSON_parse this endpoint options)
  = [mkRequest (baseUrl this ++ endpoint) (options ≫= init_method)
       [("Content-Type", "application/json")] (options ≫= init_body)]
  ∧ (∀ response,
       outcome answer (fetchApi JSON_parse this endpoint options) = Normal response
       ↔ answer (request_of this endpoint options) = Normal response
         ∧ ok response = true)
  ∧ (∀ e, answer (request_of this endpoint options) = Throws e →
          outcome answer (fetchApi JSON_parse this endpoint options) = Throws e).
Proof.
  intros Hlog.
  destruct (fetchApi_sent this endpoint options answer parsed Hlog) as [Hreq Hout].
  split; [exact Hreq|]. rewrite Hout. split.
  - intros response. destruct (answer _) as [r|e].
    + destruct (ok r) eqn:Hok; split.
      * by intros [= ->].
      * by intros [[= ->] _].
      * discriminate.
      * intros [[= ->] Hok']. congruence.
    + split; [discriminate|]. by intros [? _].
  - by intros e ->.
Qed.

(** X2.  The error [fetchApi] rejects with for a response that is not ok:
    built from the [detail] of the JSON body when that is truthy, from
    the status line when the body is JSON without a truthy [detail], and
    from the status text alone when the body is not JSON and the status
    text is not empty.  A body that is the JSON [null] gives a
    [TypeError] instead of an HTTP error. *)
Theorem fetchApi_error_of_a_failed_response this endpoint options answer parsed response :
  logged_body options = Normal parsed →
  answer (request_of this endpoint options) = Normal response →
  ok response = false →
  (∀ v detail,
     json response = Normal v → Js.get v "detail" = Normal detail →
     outcome answer (fetchApi JSON_parse this endpoint options)
     = Throws (JError "Error"
                 (if Js.truthy detail then detail
                  else JStr ("HTTP " ++ pretty (status response) ++ ": "
                               ++ statusText response))))
  ∧ (∀ e, json response = Throws e → statusText response ≠ EmptyString →
          outcome answer (fetchApi JSON_parse this endpoint options)
          = Throws (JError "Error" (JStr (statusText response))))
  ∧ (json response = Normal JNull →
     ∃ m, outcome answer (fetchApi JSON_parse this endpoint options)
          = Throws (JError "TypeError" m)).
Proof.
  intros Hlog Hanswer Hok.
  destruct (fetchApi_sent this endpoint options answer parsed Hlog) as [_ Hout].
  rewrite Hout, Hanswer, Hok. unfold http_failure.
  split; [|split].
  - intros v detail -> ->. done.
  - intros e -> Hne. cbn. unfold Js.or. cbn.
    apply String.eqb_neq in Hne. by rewrite Hne.
  - intros ->. cbn. eauto.
Qed.

(** X3.  The first log line of [fetchApi] parses the body back, outside
    of the [try] block: a body that is not empty and that [JSON.parse]
    rejects makes [fetchApi] reject with that error before anything is
    printed and before any request is sent. *)
Theorem fetchApi_rejects_an_unparsable_body this endpoint method body answer e :
  body ≠ EmptyString →
  JSON_parse body = Throws e →
  requests answer
    (fetchApi JSON_parse this endpoint (Some (mkRequestInit method (Some body)))) = []
  ∧ printed answer
      (fetchApi JSON_parse this endpoint (Some (mkRequestInit method (Some body)))) = []
  ∧ outcome answer
      (fetchApi JSON_parse this endpoint (Some (mkRequestInit method (Some body))))
    = Throws e.
Proof.
  intros Hne Hparse. apply fetchApi_not_sent. unfold logged_body. cbn.
  apply String.eqb_neq in Hne. by rewrite Hne.
Qed.

Lemma fetchApi_then_ok {A} this endpoint options answer parsed response
    (k : Response → Async A) :
  logged_body options = Normal parsed →
  answer (request_of this endpoint options) = Normal response →
  ok response = true →
  outcome answer (then_ (fetchApi JSON_parse this endpoint options) k)
  = outcome answer (k response)
  ∧ requests answer (then_ (fetchApi JSON_parse this endpoint options) k)
    = request_of this endpoint options :: requests answer (k response).
Proof.
  intros Hlog Hanswer Hok.
  destruct (fetchApi_sent this endpoint options answer parsed Hlog) as [Hreq Hout].
  rewrite Hanswer, Hok in Hout.
  by rewrite outcome_then, requests_then, Hout, Hreq.
Qed.

Lemma fetchApi_requests this endpoint options answer :
  requests answer (fetchApi JSON_parse this endpoint options) = []
  ∨ requests answer (fetchApi JSON_parse this endpoint options)
    = [request_of this endpoint options].
Proof.
  destruct (logged_body options) as [parsed|e] eqn:Hlog.
  - right. by apply (fetchApi_sent this endpoint options answer parsed).
  - left. by apply (fetchApi_not_sent this endpoint options answer e).
Qed.

(** A failing backend: every request is answered by a rejection or by a
    response that is not ok. *)
Definition backend_fails answer : Prop :=
  ∀ request,
    match answer request with
    | Normal response => ok response = false
    | Throws _ => True
    end.

Lemma fetchApi_rejects_on_failure this endpoint options answer :
  backend_fails answer →
  ∃ e, outcome answer (fetchApi JSON_parse this endpoint options) = Throws e.
Proof.
  intros Hfails.
  destruct (logged_body options) as [parsed|e] eqn:Hlog.
  - destruct (fetchApi_sent this endpoint options answer parsed Hlog) as [_ ->].
    specialize (Hfails (request_of this endpoint options)).
    destruct (answer _) as [response|e]; [|eauto].
    rewrite Hfails. eauto.
  - exists e. by apply (fetchApi_not_sent this endpoint options answer e).
Qed.

Lemma then_rejects {A B} answer (m : Async A) (k : A → Async B) :
  (∃ e, outcome answer m = Throws e) →
  ∃ e, outcome answer (then_ m k) = Throws e.
Proof. intros [e He]. exists e. by rewrite outcome_then, He. Qed.

(** X4.  When the network answers with a response that is ok, the three
    GET helpers send one request each, to [/api/metadata/<id>],
    [/api/documents/<id>/<version>] and [/api/papers/status/<id>/<version>],
    and settle as [response.json()] does: they resolve with the parsed
    body, whatever it is, and reject when the body is not JSON. *)
Theorem get_helpers_settle_as_the_body this arxivId version answer response :
  (∀ request, answer request = Normal response) →
  ok response = true →
  (outcome answer (api_callables.getArxivMetadata JSON_parse this arxivId)
   = json response
   ∧ requests answer (api_callables.getArxivMetadata JSON_parse this arxivId)
     = [mkRequest (baseUrl this ++ "/api/metadata/" ++ arxivId) None
          [("Content-Type", "application/json")] None])
  ∧ (outcome answer (api_callables.getDocument JSON_parse this arxivId version)
     = json response
     ∧ requests answer (api_callables.getDocument JSON_parse this arxivId version)
       = [mkRequest (baseUrl this ++ "/api/documents/" ++ arxivId ++ "/" ++ version)
            None [("Content-Type", "application/json")] None])
  ∧ (outcome answer (api_callables.getImportStatus JSON_parse this arxivId version)
     = json response
     ∧ requests answer (api_callables.getImportStatus JSON_parse this arxivId version)
       = [mkRequest
            (baseUrl this ++ "/api/papers/status/" ++ arxivId ++ "/" ++ version)
            None [("Content-Type", "application/json")] None]).
Proof.
  intros Hanswer Hok.
  unfold api_callables.getArxivMetadata, api_callables.getDocument,
    api_callables.getImportStatus, getMetadata, getDocument, getImportStatus.
  cbn [print then_ outcome requests].
  split; [|split].
  - edestruct (fetchApi_then_ok (A := JsValue) this ("/api/metadata/" ++ arxivId) None
                 answer JUndefined response) as [-> ->]; [done|apply Hanswer|done|].
    destruct (json response); done.
  - edestruct (fetchApi_then_ok (A := JsValue) this
                 ("/api/documents/" ++ arxivId ++ "/" ++ version) None
                 answer JUndefined response) as [-> ->]; [done|apply Hanswer|done|].
    destruct (json response); done.
  - edestruct (fetchApi_then_ok (A := JsValue) this
                 ("/api/papers/status/" ++ arxivId ++ "/" ++ version) None
                 answer JUndefined response) as [-> ->]; [done|apply Hanswer|done|].
    destruct (json response); done.
Qed.

(** X5.  [requestPaperImport] posts [{arxiv_id}] to [/api/papers/import]
    and, on a response that is ok, resolves with the parsed body as it is:
    it does not look inside it, so a body that carries an [error] field
    is a resolved result, not a rejection. *)
Theorem requestPaperImport_resolves_with_the_body_as_it_is
    this arxivId answer response parsed :
  JSON_parse (JSON_stringify (JObj [("arxiv_id", JStr arxivId)])) = Normal parsed →
  (∀ request, answer request = Normal response) →
  ok response = true →
  outcome answer
    (api_callables.requestArxivDocImportCallable JSON_parse JSON_stringify this arxivId)
  = json response
  ∧ requests answer
      (api_callables.requestArxivDocImportCallable JSON_parse JSON_stringify this arxivId)
    = [mkRequest (baseUrl this ++ "/api/papers/import") (Some "POST")
         [("Content-Type", "application/json")]
         (Some (JSON_stringify (JObj [("arxiv_id", JStr arxivId)])))].
Proof.
  intros Hparse Hanswer Hok.
  unfold api_callables.requestArxivDocImportCallable, requestPaperImport.
  cbn [print then_ outcome requests].
  set (body := JSON_stringify (JObj [("arxiv_id", JStr arxivId)])) in *.
  assert (∃ p, logged_body (Some (mkRequestInit (Some "POST") (Some body))) = Normal p)
    as [p Hlog].
  { unfold logged_body. cbn. destruct (String.eqb body EmptyString); eauto. }
  edestruct (fetchApi_then_ok (A := JsValue) this "/api/papers/import"
               (Some (mkRequestInit (Some "POST") (Some body)))
               answer p response) as [-> ->]; [done|apply Hanswer|done|].
  destruct (json response); done.
Qed.

(** X6.  [saveFeedback] never reads the body of the response: on a
    response that is ok it resolves, even when the body is not JSON. *)
Theorem saveFeedback_ignores_the_response_body
    this feedbackText arxivId answer response parsed :
  JSON_parse
    (JSON_stringify
       (JObj [("user_feedback_text", JStr feedbackText);
              ("arxiv_id", match arxivId with
                           | Some id => JStr id
                           | None => JUndefined
                           end)])) = Normal parsed →
  (∀ request, answer request = Normal response) →
  ok response = true →
  outcome answer
    (saveUserFeedbackCallable JSON_parse JSON_stringify this
       (mkUserFeedback feedbackText arxivId))
  = Normal ().
Proof.
  intros Hparse Hanswer Hok.
  unfold saveUserFeedbackCallable, saveFeedback. cbn [userFeedbackText feedback_arxivId].
  match goal with |- context [fetchApi _ _ _ (Some (mkRequestInit _ (Some ?b)))] =>
    set (body := b) in * end.
  assert (∃ p, logged_body (Some (mkRequestInit (Some "POST") (Some body))) = Normal p)
    as [p Hlog].
  { unfold logged_body. cbn. destruct (String.eqb body EmptyString); eauto. }
  by edestruct (fetchApi_then_ok (A := unit) this "/api/feedback"
                  (Some (mkRequestInit (Some "POST") (Some body)))
                  answer p response) as [-> _]; [done|apply Hanswer|done|].
Qed.

(** X7.  No helper turns a failure of the backend into a result: when
    every request is answered by a rejection or by a response that is not
    ok, each of the seven callables rejects. *)
Theorem callables_reject_when_the_backend_fails
    this arxivId version doc request pastPapers apiKey feedback answer :
  backend_fails answer →
  (∃ e, outcome answer
          (api_callables.requestArxivDocImportCallable JSON_parse JSON_stringify
             this arxivId) = Throws e)
  ∧ (∃ e, outcome answer
            (getLumiResponseCallable JSON_parse JSON_stringify this doc request apiKey)
          = Throws e)
  ∧ (∃ e, outcome answer (api_callables.getArxivMetadata JSON_parse this arxivId)
          = Throws e)
  ∧ (∃ e, outcome answer
            (getPersonalSummaryCallable JSON_parse JSON_stringify this doc pastPapers
               apiKey) = Throws e)
  ∧ (∃ e, outcome answer
            (saveUserFeedbackCallable JSON_parse JSON_stringify this feedback)
          = Throws e)
  ∧ (∃ e, outcome answer (api_callables.getDocument JSON_parse this arxivId version)
          = Throws e)
  ∧ (∃ e, outcome answer (api_callables.getImportStatus JSON_parse this arxivId version)
          = Throws e).
Proof.
  intros Hfails.
  unfold api_callables.requestArxivDocImportCallable, getLumiResponseCallable,
    api_callables.getArxivMetadata, getPersonalSummaryCallable,
    saveUserFeedbackCallable, api_callables.getDocument,
    api_callables.getImportStatus, requestPaperImport, getAnswer, getMetadata,
    getPersonalSummary, saveFeedback, getDocument, getImportStatus.
  cbn [print then_ outcome].
  repeat split; by apply then_rejects, fetchApi_rejects_on_failure.
Qed.

Lemma requests_after_fetchApi {A} this endpoint options answer (k : Response → Async A) :
  (∀ response, requests answer (k response) = []) →
  requests answer (then_ (fetchApi JSON_parse this endpoint options) k)
  = requests answer (fetchApi JSON_parse this endpoint options).
Proof.
  intros Hk. rewrite requests_then.
  destruct (outcome answer _) as [response|e]; rewrite ?Hk; apply app_nil_r.
Qed.

(** At most one request, sent to the backend of the service with the JSON
    content type. *)
Definition one_backend_request_at_most this (sent : list Request) : Prop :=
  (length sent ≤ 1)%nat
  ∧ Forall (λ request,
              request_headers request = [("Content-Type", "application/json")]
              ∧ ∃ endpoint, request_url request = baseUrl this ++ endpoint) sent.

Lemma fetchApi_one_backend_request_at_most this endpoint options answer :
  one_backend_request_at_most this
    (requests answer (fetchApi JSON_parse this endpoint options)).
Proof.
  destruct (fetchApi_requests this endpoint options answer) as [->| ->].
  - split; [cbn; lia|constructor].
  - split; [cbn; lia|]. apply Forall_singleton. split; [done|]. by exists endpoint.
Qed.

(** X8.  Whatever the network answers, each of the seven callables sends
    at most one request (there is no retry), and that request goes to a
    path under [baseUrl] with the JSON content type. *)
Theorem callables_send_one_request_at_most
    this arxivId version doc request pastPapers apiKey feedback answer :
  one_backend_request_at_most this
    (requests answer
       (api_callables.requestArxivDocImportCallable JSON_parse JSON_stringify
          this arxivId))
  ∧ one_backend_request_at_most this
      (requests answer
         (getLumiResponseCallable JSON_parse JSON_stringify this doc request apiKey))
  ∧ one_backend_request_at_most this
      (requests answer (api_callables.getArxivMetadata JSON_parse this arxivId))
  ∧ one_backend_request_at_most this
      (requests answer
         (getPersonalSummaryCallable JSON_parse JSON_stringify this doc pastPapers
            apiKey))
  ∧ one_backend_request_at_most this
      (requests answer (saveUserFeedbackCallable JSON_parse JSON_stringify this feedback))
  ∧ one_backend_request_at_most this
      (requests answer (api_callables.getDocument JSON_parse this arxivId version))
  ∧ one_backend_request_at_most this
      (requests answer (api_callables.getImportStatus JSON_parse this arxivId version)).
Proof.
  unfold api_callables.requestArxivDocImportCallable, getLumiResponseCallable,
    api_callables.getArxivMetadata, getPersonalSummaryCallable,
    saveUserFeedbackCallable, api_callables.getDocument,
    api_callables.getImportStatus, requestPaperImport, getAnswer, getMetadata,
    getPersonalSummary, saveFeedback, getDocument, getImportStatus.
  cbn [print then_ requests].
  repeat split.
  all: rewrite requests_after_fetchApi;
    [apply fetchApi_one_backend_request_at_most
    |intros response; try done; by destruct (json response)].
Qed.

(** X9.  [getDownloadUrl] drops one leading slash of the path and no more:
    a path and the same path behind a slash give the same URL under
    [baseUrl/files/], while a second leading slash stays in the URL. *)
Theorem getDownloadUrl_drops_one_leading_slash this path :
  String.prefix "/" path = false →
  getDownloadUrl this ("/" ++ path) = getDownloadUrl this path
  ∧ getDownloadUrl this path = Resolve (baseUrl this ++ "/files/" ++ path)
  ∧ getDownloadUrl this ("//" ++ path) = Resolve (baseUrl this ++ "/files//" ++ path).
Proof.
  intros Hprefix.
  assert (∀ rest, cleanPath ("/" ++ rest) = rest) as Hclean.
  { intros rest. unfold cleanPath. by destruct rest. }
  unfold getDownloadUrl. split; [|split].
  - rewrite Hclean. unfold cleanPath. by rewrite Hprefix.
  - unfold cleanPath. by rewrite Hprefix.
  - change ("//" ++ path) with ("/" ++ ("/" ++ path)). by rewrite Hclean.
Qed.

End rest_facts.

(** ** More on the socket registry *)

Section registry_more.

Variable JSON_parse : string → Completion JsValue.

Implicit Types (w : World) (c : Closure) (s : WebSocket).

Lemma callback_calls_app (l1 l2 : list Output) :
  callback_calls (l1 ++ l2) = (callback_calls l1 ++ callback_calls l2)%list.
Proof. apply List.filter_app. Qed.

Lemma callback_calls_console (lines : list Output) :
  Forall is_console lines → callback_calls lines = [].
Proof.
  induction 1 as [|o lines Ho _ IH]; [done|].
  destruct o; cbn in *; done.
Qed.

Lemma is_console_log_is_console (lines : list Output) :
  Forall is_console_log lines → Forall is_console lines.
Proof. intros H. eapply Forall_impl; [exact H|]. by intros []. Qed.

(** X10.  When the constructor accepts the URL of the call (it has no
    fragment), [connectDocumentSocket] returns, with a reference to a
    socket it has just created, and calls no callback of the consumer
    while it runs, also when it closes the socket it replaces. *)
Theorem connectDocumentSocket_returns_and_calls_nothing w arxivId version onUpdate onError :
  URL_has_fragment (wsUrl (api w) ++ "/ws/" ++ arxivId ++ "/" ++ version) = false →
  (connectDocumentSocket arxivId version onUpdate onError w).1
  = Normal (length (sockets w))
  ∧ length (sockets (connectDocumentSocket arxivId version onUpdate onError w).2)
    = S (length (sockets w))
  ∧ callback_calls (output (connectDocumentSocket arxivId version onUpdate onError w).2)
    = callback_calls (output w).
Proof.
  intros _.
  destruct (connectDocumentSocket_spec arxivId version onUpdate onError w)
    as (lines & -> & Hlines).
  cbn [fst snd sockets output]. split; [done|].
  split; [apply sockets_after_connect_length|].
  rewrite callback_calls_app, (callback_calls_console lines).
  - apply app_nil_r.
  - by apply is_console_log_is_console.
Qed.


(** X12.  A call for one key leaves the others alone: the entry of every
    other key stays as it was, and a socket that is not the one registered
    under the key of the call is not touched. *)
Theorem connect_leaves_the_other_keys_alone w arxivId version onUpdate onError key ws s :
  key ≠ arxivId ++ "_" ++ version →
  sockets w !! ws = Some s →
  websockets (api w) !! (arxivId ++ "_" ++ version) ≠ Some ws →
  websockets (api (connectDocumentSocket arxivId version onUpdate onError w).2) !! key
  = websockets (api w) !! key
  ∧ sockets (connectDocumentSocket arxivId version onUpdate onError w).2 !! ws = Some s.
Proof.
  intros Hkey Hs Hreg.
  destruct (connectDocumentSocket_spec arxivId version onUpdate onError w)
    as (lines & -> & _).
  cbn [snd api websockets sockets]. split.
  - by rewrite lookup_insert_ne.
  - rewrite (sockets_after_connect_old _ _ w ws s Hs). by rewrite decide_False.
Qed.

(** X13.  [closeAllWebSockets] only reaches the sockets that the registry
    still refers to: a socket that no entry refers to (one that lost its
    entry to the close event of the socket it replaced, for instance) is
    left as it is, and nothing is printed. *)
Theorem closeAllWebSockets_misses_unregistered_sockets w ws :
  (∀ key, websockets (api w) !! key ≠ Some ws) →
  sockets (closeAllWebSockets w).2 !! ws = sockets w !! ws
  ∧ output (closeAllWebSockets w).2 = output w.
Proof.
  intros Hfree. rewrite closeAllWebSockets_spec. cbn [snd sockets output].
  split; [|done]. rewrite close_each_lookup.
  rewrite decide_False; [by destruct (sockets w !! ws)|].
  intros ([key ws'] & -> & Hin)%list_elem_of_fmap.
  apply elem_of_map_to_list in Hin. by apply (Hfree key).
Qed.

End registry_more.

(** ** More on the handlers *)

Section handlers_more.

Variable JSON_parse : string → Completion JsValue.

Implicit Types (w : World) (c : Closure) (s : WebSocket).

Lemma get_throws_any_key m k k' e :
  Js.get m k = Throws e → ∃ e', Js.get m k' = Throws e'.
Proof. destruct m; simpl; intros H; try discriminate; eauto. Qed.

(** A frame that parses to [null]: reading [message.paper_id] throws, and
    the [catch] block reports the frame like a malformed one. *)
Lemma onmessage_unreadable c raw m e w :
  JSON_parse raw = Normal m →
  Js.get m "data" = Throws e →
  ∃ e',
    onmessage JSON_parse c raw w
    = (Normal (),
       mkWorld (api w) (sockets w)
         (output w ++
            [console_log
               ("[WebSocket] Message received for " ++ arxivId c ++ " v" ++ version c ++ ":")
               [("raw", JStr raw)];
             console_error
               ("[WebSocket] Failed to parse message for "
                  ++ arxivId c ++ " v" ++ version c ++ ":")
               [("error", e'); ("raw_data", JStr raw)]])).
Proof.
  intros Hparse Hdata.
  destruct (get_throws_any_key m "data" "paper_id" e Hdata) as [e' H1].
  exists e'.
  unfold onmessage, try_catch, onmessage_try, bind, emit, lift. cbn.
  rewrite Hparse. cbn. rewrite H1. cbn. by rewrite <- app_assoc.
Qed.

(** What the handler hands to [onUpdate] for a frame, if anything:
    [message.data || message] when the frame parses to a [message] that is
    not [null]. *)
Definition payload_of (raw : string) : option JsValue :=
  match JSON_parse raw with
  | Normal message =>
      match Js.get message "data" with
      | Normal data => Some (Js.or data message)
      | Throws _ => None
      end
  | Throws _ => None
  end.

Lemma onmessage_calls c raw w :
  ∃ lines,
    onmessage JSON_parse c raw w
    = (Normal (), mkWorld (api w) (sockets w) (output w ++ lines))
    ∧ callback_calls lines
      = match payload_of raw with
        | Some payload => [onUpdate_call (onUpdate c) payload]
        | None => []
        end.
Proof.
  unfold payload_of.
  destruct (JSON_parse raw) as [m|e] eqn:Hparse.
  - destruct (Js.get m "data") as [d|e] eqn:Hdata.
    + destruct (onmessage_parsed JSON_parse c raw m d w Hparse Hdata)
        as (line1 & line2 & after & -> & H1 & H2 & Hafter & _).
      eexists. split; [reflexivity|].
      change ([line1; line2; onUpdate_call (onUpdate c) (Js.or d m)] ++ after)%list
        with ([line1; line2] ++ [onUpdate_call (onUpdate c) (Js.or d m)] ++ after)%list.
      rewrite !callback_calls_app, (callback_calls_console after Hafter).
      rewrite (callback_calls_console [line1; line2]) by (by repeat constructor).
      done.
    + destruct (onmessage_unreadable c raw m e w Hparse Hdata) as [e' ->].
      eexists. split; [reflexivity|done].
  - rewrite (onmessage_malformed JSON_parse c raw e w Hparse).
    eexists. split; [reflexivity|done].
Qed.

(** X14.  On an open socket, any sequence of frames leaves the socket and
    the registry as they were, and the calls of callbacks it causes are
    exactly one call of [onUpdate] for each frame that parses to a value
    other than [null], with [message.data || message], in the order of
    arrival; no other frame causes a call. *)
Theorem frames_are_delivered_in_order w ws s frames :
  sockets w !! ws = Some s → readyState s = OPEN →
  sockets (run JSON_parse ((λ raw, Deliver (message_event ws raw)) <$> frames) w)
  = sockets w
  ∧ api (run JSON_parse ((λ raw, Deliver (message_event ws raw)) <$> frames) w) = api w
  ∧ callback_calls
      (output (run JSON_parse ((λ raw, Deliver (message_event ws raw)) <$> frames) w))
    = (callback_calls (output w)
         ++ omap (λ raw, onUpdate_call (onUpdate (handlers s)) <$> payload_of raw)
              frames)%list.
Proof.
  intros Hs Hopen. revert w Hs.
  induction frames as [|raw frames IH]; intros w Hs.
  - cbn. by rewrite app_nil_r.
  - cbn [fmap list_fmap]. rewrite run_cons. cbn [perform].
    rewrite (dispatch_message JSON_parse w ws s raw Hs Hopen).
    destruct (onmessage_calls (handlers s) raw w) as (lines & -> & Hcalls).
    cbn [snd].
    destruct (IH (mkWorld (api w) (sockets w) (output w ++ lines)) Hs)
      as (-> & -> & ->).
    cbn [sockets api output]. split; [done|]. split; [done|].
    rewrite callback_calls_app, Hcalls, <- app_assoc. f_equal.
    cbn [omap list_omap]. by destruct (payload_of raw).
Qed.

(** X15.  An exception of the consumer's [onUpdate] does not leave the
    message handler: it is caught by the same [catch] block as a decode
    error and printed as a failure to parse the frame; the socket and the
    registry stay as they were. *)
Theorem throwing_onUpdate_is_reported_as_a_parse_failure w ws s raw m d :
  sockets w !! ws = Some s → readyState s = OPEN →
  JSON_parse raw = Normal m → Js.get m "data" = Normal d →
  cb_throws (onUpdate (handlers s)) (Js.or d m) = true →
  ∃ before e,
    dispatch JSON_parse (message_event ws raw) w
    = (Normal (),
       mkWorld (api w) (sockets w)
         (output w ++ before
            ++ [onUpdate_call (onUpdate (handlers s)) (Js.or d m);
                console_error
                  ("[WebSocket] Failed to parse message for "
                     ++ arxivId (handlers s) ++ " v" ++ version (handlers s) ++ ":")
                  [("error", e); ("raw_data", JStr raw)]]))
    ∧ Forall is_console before.
Proof.
  intros Hs Hopen Hparse Hdata Hthrows.
  rewrite (dispatch_message JSON_parse w ws s raw Hs Hopen).
  destruct (get_normal_any_key m "data" "paper_id" d Hdata) as [v1 H1].
  destruct (get_normal_any_key m "data" "version" d Hdata) as [v2 H2].
  destruct (get_normal_any_key m "data" "type" d Hdata) as [v3 H3].
  unfold onmessage, try_catch, onmessage_try, call_onUpdate, bind, emit, lift, ret, throw.
  cbn. rewrite Hparse. cbn. rewrite H1, H2, H3, Hdata. cbn. rewrite Hthrows. cbn.
  rewrite <- !app_assoc. cbn.
  eexists [_; _], _. split; [reflexivity|]. by repeat constructor.
Qed.

(** X16.  A frame whose envelope has a truthy [data] has that [data]
    alone handed to [onUpdate]: [paper_id], [version] and [type] of the
    envelope do not reach the consumer. *)
Theorem truthy_data_is_handed_over_alone w ws s raw m d :
  sockets w !! ws = Some s → readyState s = OPEN →
  JSON_parse raw = Normal m → Js.get m "data" = Normal d → Js.truthy d = true →
  ∃ before after,
    output (perform JSON_parse (Deliver (message_event ws raw)) w)
    = (output w ++ before ++ [onUpdate_call (onUpdate (handlers s)) d] ++ after)%list
    ∧ Forall is_console before ∧ Forall is_console after.
Proof.
  intros Hs Hopen Hm Hd Htruthy. cbn [perform].
  rewrite (dispatch_message JSON_parse w ws s raw Hs Hopen).
  destruct (onmessage_parsed JSON_parse (handlers s) raw m d w Hm Hd)
    as (line1 & line2 & after & -> & H1 & H2 & Hafter & _).
  exists [line1; line2], after. cbn [snd output].
  unfold Js.or. rewrite Htruthy. split; [done|]. split; [|done].
  by repeat constructor.
Qed.

Lemma uncaught_onerror_calls ws c error w :
  ∃ lines,
    uncaught (onerror ws c error) w
    = (Normal (), mkWorld (api w) (sockets w) (output w ++ lines))
    ∧ callback_calls lines
      = match onError c with
        | Some cb => [onError_call cb error]
        | None => []
        end.
Proof.
  unfold uncaught, try_catch, onerror, call_onError, bind, emit, ret, throw. cbn.
  destruct (onError c) as [cb|]; cbn.
  - destruct (cb_throws cb error); cbn; rewrite <- !app_assoc;
      (eexists; split; [reflexivity|done]).
  - eexists. split; [reflexivity|done].
Qed.

Lemma dispatch_connection_closed_calls w ws s failure event :
  sockets w !! ws = Some s → readyState s ≠ CLOSED →
  ∃ lines,
    dispatch JSON_parse (connection_closed ws failure event) w
    = (Normal (),
       mkWorld
         (mkApiService (baseUrl (api w)) (wsUrl (api w))
            (delete (wsKey (handlers s)) (websockets (api w))))
         (alter (with_readyState (λ _, CLOSED)) ws (sockets w))
         (output w ++ lines))
    ∧ callback_calls lines
      = match failure, onError (handlers s) with
        | Some error, Some cb => [onError_call cb error]
        | _, _ => []
        end.
Proof.
  intros Hs Hr. unfold dispatch. rewrite Hs. rewrite decide_False by done.
  unfold bind at 1 2. unfold set_sockets at 1. cbn [fst snd].
  destruct failure as [error|].
  - match goal with |- context [uncaught (onerror ws (handlers s) error) ?w1] =>
      destruct (uncaught_onerror_calls ws (handlers s) error w1) as (l1 & -> & Hl1) end.
    unfold uncaught, try_catch, onclose, bind, emit, set_websockets. cbn.
    rewrite <- app_assoc. eexists. split; [reflexivity|].
    rewrite callback_calls_app, Hl1. cbn. rewrite app_nil_r.
    by destruct (onError (handlers s)).
  - unfold ret, uncaught, try_catch, onclose, bind, emit, set_websockets. cbn.
    eexists. split; [reflexivity|done].
Qed.

(** X17.  When the connection of a socket ends, the socket becomes closed
    and its [onclose] handler removes the entry of its key from the
    registry; the consumer is told only if the connection failed and an
    [onError] callback was given, by exactly one call of that callback
    with the error event (also if the callback throws).  No [onUpdate] is
    called, and a clean end calls nothing. *)
Theorem connection_end_unregisters_and_reports_failure_once w ws s failure event :
  sockets w !! ws = Some s → readyState s ≠ CLOSED →
  websockets (api (perform JSON_parse (Deliver (connection_closed ws failure event)) w))
  = delete (wsKey (handlers s)) (websockets (api w))
  ∧ sockets (perform JSON_parse (Deliver (connection_closed ws failure event)) w) !! ws
    = Some (mkWebSocket (url s) CLOSED (handlers s))
  ∧ callback_calls
      (output (perform JSON_parse (Deliver (connection_closed ws failure event)) w))
    = (callback_calls (output w)
         ++ match failure, onError (handlers s) with
            | Some error, Some cb => [onError_call cb error]
            | _, _ => []
            end)%list.
Proof.
  intros Hs Hr. cbn [perform].
  destruct (dispatch_connection_closed_calls w ws s failure event Hs Hr)
    as (lines & -> & Hcalls).
  cbn [snd api websockets sockets output]. split; [done|]. split.
  - rewrite list_lookup_alter_eq, Hs. done.
  - by rewrite callback_calls_app, Hcalls.
Qed.

(** *** An invariant of the registry *)

(** Every entry of the registry refers to a socket that exists, that was
    created for the key of the entry, and that is connecting or open. *)
Definition registry_live w : Prop :=
  ∀ key ws,
    websockets (api w) !! key = Some ws →
    ∃ s, sockets w !! ws = Some s
         ∧ wsKey (handlers s) = key
         ∧ (readyState s = CONNECTING ∨ readyState s = OPEN).

Lemma onmessage_state c raw w :
  ∃ lines,
    onmessage JSON_parse c raw w
    = (Normal (), mkWorld (api w) (sockets w) (output w ++ lines)).
Proof. destruct (onmessage_calls c raw w) as (lines & -> & _). eauto. Qed.

Lemma world_eta w : mkWorld (api w) (sockets w) (output w) = w.
Proof. by destruct w. Qed.

Lemma dispatch_message_state w ws raw :
  ∃ lines,
    dispatch JSON_parse (message_event ws raw) w
    = (Normal (), mkWorld (api w) (sockets w) (output w ++ lines)).
Proof.
  unfold dispatch.
  destruct (sockets w !! ws) as [s|];
    [destruct (decide (readyState s = OPEN))|].
  - rewrite uncaught_normal by apply onmessage_returns. apply onmessage_state.
  - exists []. by rewrite app_nil_r, world_eta.
  - exists []. by rewrite app_nil_r, world_eta.
Qed.

Lemma dispatch_open_state w ws :
  ∃ lines,
    dispatch JSON_parse (open_event ws) w
    = (Normal (),
       mkWorld (api w)
         (match sockets w !! ws with
          | Some s =>
              if decide (readyState s = CONNECTING)
              then alter (with_readyState (λ _, OPEN)) ws (sockets w)
              else sockets w
          | None => sockets w
          end)
         (output w ++ lines)).
Proof.
  unfold dispatch.
  destruct (sockets w !! ws) as [s|];
    [destruct (decide (readyState s = CONNECTING))|].
  - unfold bind, set_sockets, uncaught, try_catch, onopen, bind, this_wsUrl, emit.
    cbn. eauto.
  - exists []. by rewrite app_nil_r, world_eta.
  - exists []. by rewrite app_nil_r, world_eta.
Qed.

Lemma perform_keeps_registry_live a w :
  registry_live w → registry_live (perform JSON_parse a w).
Proof.
  intros Hlive. destruct a as [arxivId version onUpdate onError| |[ws|ws raw|ws failure event]].
  - (* connectDocumentSocket *)
    destruct (perform_Connect JSON_parse arxivId version onUpdate onError w) as [lines ->].
    set (k := arxivId ++ "_" ++ version).
    intros key ws. cbn [api websockets sockets].
    destruct (decide (key = k)) as [->|Hne].
    + rewrite lookup_insert_eq. intros [= <-].
      eexists. split; [apply sockets_after_connect_new|]. split; [done|by left].
    + rewrite lookup_insert_ne by done. intros Hreg.
      destruct (Hlive key ws Hreg) as (s & Hs & Hkey & Hr).
      exists s. split; [|done].
      rewrite (sockets_after_connect_old k _ w ws s Hs).
      rewrite decide_False; [done|]. intros Hk.
      destruct (Hlive k ws Hk) as (s' & Hs' & Hkey' & _). congruence.
  - (* closeAllWebSockets *)
    cbn [perform]. rewrite closeAllWebSockets_spec. cbn [snd].
    intros key ws. cbn [api websockets]. by rewrite lookup_empty.
  - (* the open event *)
    cbn [perform]. destruct (dispatch_open_state w ws) as [lines ->]. cbn [snd].
    intros key ws' Hreg. cbn [api] in Hreg.
    destruct (Hlive key ws' Hreg) as (s & Hs & Hkey & Hr). cbn [sockets].
    destruct (sockets w !! ws) as [s0|] eqn:Hs0; [|by eauto].
    destruct (decide (readyState s0 = CONNECTING)); [|by eauto].
    destruct (decide (ws' = ws)) as [->|Hne].
    + rewrite list_lookup_alter_eq, Hs. cbn. eexists. split; [done|].
      split; [done|by right].
    + rewrite list_lookup_alter_ne by done. eauto.
  - (* a message *)
    cbn [perform]. destruct (dispatch_message_state w ws raw) as [lines ->]. cbn [snd].
    exact Hlive.
  - (* the end of a connection *)
    cbn [perform].
    destruct (sockets w !! ws) as [s0|] eqn:Hs0.
    + destruct (decide (readyState s0 = CLOSED)) as [Hclosed|Hopen].
      * unfold dispatch. rewrite Hs0. by rewrite decide_True.
      * destruct (dispatch_connection_closed JSON_parse w ws s0 failure event Hs0 Hopen)
          as [lines ->].
        cbn [snd]. intros key ws'. cbn [api websockets sockets].
        destruct (decide (key = wsKey (handlers s0))) as [->|Hne].
        { by rewrite lookup_delete_eq. }
        rewrite lookup_delete_ne by done. intros Hreg.
        destruct (Hlive key ws' Hreg) as (s & Hs & Hkey & Hr).
        exists s. split; [|done].
        rewrite list_lookup_alter_ne; [done|]. intros ->. congruence.
    + unfold dispatch. by rewrite Hs0.
Qed.

(** X18.  Whatever calls of [connectDocumentSocket] and
    [closeAllWebSockets] are made and whatever events the browser delivers
    after the service is built, every entry of the registry refers to a
    socket that was created for the key of that entry and that is still
    connecting or open: the registry never holds a socket that is closing
    or closed. *)
Theorem registry_only_holds_live_sockets env actions :
  registry_live (run JSON_parse actions (boot env)).
Proof.
  assert (∀ w, registry_live w → registry_live (run JSON_parse actions w)) as Hrun.
  { induction actions as [|a actions IH]; intros w Hw; [done|].
    rewrite run_cons. by apply IH, perform_keeps_registry_live. }
  apply Hrun. intros key ws. unfold boot, ApiService_new. cbn.
  destruct (String.eqb (NODE_ENV env) "development"); cbn; by rewrite lookup_empty.
Qed.

End handlers_more.

(** ** More on HomeService *)

Section HomeService_more.

Context {ArxivMetadata FeaturedImage : Type}.

Implicit Types this : HomeService ArxivMetadata FeaturedImage.

Lemma same_but_map_eq this this' :
  same_but_map this this' →
  paperToMetadataMap this' = paperToMetadataMap this →
  this' = this.
Proof.
  destruct this, this'. unfold same_but_map. cbn.
  intros (-> & -> & -> & -> & -> & -> & ->) ->. done.
Qed.

Lemma entry_after_again ids forceReload this this1 id :
  sp this1 = sp this →
  (∀ i, paperToMetadataMap this1 !! i = entry_after ids forceReload this i) →
  entry_after ids forceReload this1 id = entry_after ids forceReload this id.
Proof.
  intros Hsp Hmap. unfold entry_after at 1. rewrite Hmap.
  unfold entry_after, local. rewrite Hsp.
  destruct (getPaperData (historyService (sp this)) id ≫= metadata) as [m|]; [|done].
  destruct (bool_decide (id ∈ ids)), (String.eqb id EmptyString), forceReload;
    cbn [orb negb andb]; try done.
  destruct (paperToMetadataMap this !! id) as [old|] eqn:Hold;
    repeat case_bool_decide; congruence.
Qed.

(** X19.  [loadMetadata] is idempotent: calling it again with the same
    ids and the same [forceReload] leaves the service exactly as the
    first call left it. *)
Theorem loadMetadata_twice_is_once ids forceReload this :
  (loadMetadata ids forceReload (loadMetadata ids forceReload this).1).1
  = (loadMetadata ids forceReload this).1.
Proof.
  apply same_but_map_eq; [apply loadMetadata_frame|].
  apply map_eq. intros id. rewrite loadMetadata_lookup.
  rewrite (entry_after_again ids forceReload this).
  - by rewrite loadMetadata_lookup.
  - apply loadMetadata_frame.
  - intros i. apply loadMetadata_lookup.
Qed.

(** X20.  Without [forceReload] the map wins over the local history:
    every entry the map had is still there, with the same metadata, after
    [loadMetadata]; and with or without [forceReload], the entry of an id
    that is not in the list is left as it was. *)
Theorem loadMetadata_keeps_what_is_cached ids this :
  paperToMetadataMap this ⊆ paperToMetadataMap (loadMetadata ids false this).1
  ∧ ∀ forceReload id,
      id ∉ ids →
      paperToMetadataMap (loadMetadata ids forceReload this).1 !! id
      = paperToMetadataMap this !! id.
Proof.
  split.
  - apply map_subseteq_spec. intros id m Hm.
    rewrite loadMetadata_lookup. unfold entry_after. rewrite Hm.
    destruct (local this id); [|done].
    rewrite (bool_decide_eq_false_2 (Some m = None)) by done.
    by rewrite andb_false_r.
  - intros forceReload id Hid. rewrite loadMetadata_lookup. unfold entry_after.
    destruct (local this id); [|done].
    by rewrite (bool_decide_eq_false_2 (id ∈ ids)).
Qed.

Variable paperId : ArxivMetadata → option string.

Lemma setCurrentCollection_frame currentCollectionId0 this :
  same_but_map (set_currentCollection None this)
    (setCurrentCollection paperId currentCollectionId0 this).1.
Proof.
  unfold setCurrentCollection.
  pose proof (loadMetadata_frame
                (omap (λ item, metadata item ≫= paperId)
                   (getPaperHistory (historyService (sp (set_currentCollection None this)))))
                false (set_currentCollection None this)) as Hframe.
  by destruct (loadMetadata _ false (set_currentCollection None this)) as [this1 out1].
Qed.

Lemma setCurrentCollection_map currentCollectionId0 this :
  paperToMetadataMap (setCurrentCollection paperId currentCollectionId0 this).1
  = paperToMetadataMap
      (loadMetadata
         (omap (λ item, metadata item ≫= paperId)
            (getPaperHistory (historyService (sp this))))
         false (set_currentCollection None this)).1.
Proof.
  unfold setCurrentCollection. cbn [sp set_currentCollection].
  by destruct (loadMetadata _ false (set_currentCollection None this)) as [this1 out1].
Qed.

(** X21.  After [loadCollections] the collections count as loaded and not
    as loading, there is no current collection (so the getter
    [currentMetadata] gives [undefined]), and the list of collections is
    empty if it was reloaded and unchanged otherwise; the featured images,
    the upload dialog flag and the local store are never touched. *)
Theorem loadCollections_ends_loaded_without_collection
    currentCollectionId0 forceReload this :
  hasLoadedCollections (loadCollections paperId currentCollectionId0 forceReload this).1
  = true
  ∧ isLoadingCollections (loadCollections paperId currentCollectionId0 forceReload this).1
    = (if negb (hasLoadedCollections this) || forceReload then false
       else isLoadingCollections this)
  ∧ collections (loadCollections paperId currentCollectionId0 forceReload this).1
    = (if negb (hasLoadedCollections this) || forceReload then []
       else collections this)
  ∧ currentCollection (loadCollections paperId currentCollectionId0 forceReload this).1
    = None
  ∧ currentMetadata (loadCollections paperId currentCollectionId0 forceReload this).1
    = None
  ∧ paperToFeaturedImageMap
      (loadCollections paperId currentCollectionId0 forceReload this).1
    = paperToFeaturedImageMap this
  ∧ showUploadDialog (loadCollections paperId currentCollectionId0 forceReload this).1
    = showUploadDialog this
  ∧ sp (loadCollections paperId currentCollectionId0 forceReload this).1 = sp this.
Proof.
  unfold loadCollections.
  destruct (hasLoadedCollections this) eqn:Hloaded, forceReload; cbn [negb orb].
  all: match goal with
       | |- context [setCurrentCollection paperId ?c ?t] =>
           pose proof (setCurrentCollection_frame c t)
             as (Hsp & Hc & Hl & Hi & Hf & Hcur & Hs);
           destruct (setCurrentCollection paperId c t) as [this1 out1]
       end.
  all: cbn in *; unfold currentMetadata; rewrite Hcur.
  all: repeat split; congruence.
Qed.

(** X22.  [setCurrentCollection] fills the map from the local history:
    every paper of the history whose metadata carry a non-empty [paperId]
    for which [getPaperData] has metadata ends in the map, with the
    metadata the map already had for it if any, and with those of
    [getPaperData] otherwise. *)
Theorem setCurrentCollection_loads_the_history
    currentCollectionId0 this item m id m' :
  item ∈ getPaperHistory (historyService (sp this)) →
  metadata item = Some m → paperId m = Some id → id ≠ EmptyString →
  local this id = Some m' →
  paperToMetadataMap (setCurrentCollection paperId currentCollectionId0 this).1 !! id
  = Some (default m' (paperToMetadataMap this !! id)).
Proof.
  intros Hitem Hm Hid Hne Hlocal.
  rewrite setCurrentCollection_map, loadMetadata_lookup.
  unfold entry_after. change (local (set_currentCollection None this) id)
    with (local this id). rewrite Hlocal.
  cbn [paperToMetadataMap set_currentCollection].
  rewrite bool_decide_eq_true_2.
  - apply String.eqb_neq in Hne. rewrite Hne. cbn.
    destruct (paperToMetadataMap this !! id) as [old|].
    + by rewrite (bool_decide_eq_false_2 (Some old = None)).
    + by rewrite (bool_decide_eq_true_2 (None = None)).
  - apply list_elem_of_omap. exists item. split; [done|]. by rewrite Hm.
Qed.

End HomeService_more.

(** * More worked scenarios *)

(** ** The REST helpers *)

(** A second runtime for the scenarios: [rest_stringify] agrees with
    [JSON.stringify] on objects whose fields are plain strings (with no
    character to escape), [null] or [undefined] (a field that is
    [undefined] is left out), and [rest_parse] with [JSON.parse] on the
    texts the scenarios use. *)
Fixpoint field_texts (props : list (string * JsValue)) : list string :=
  match props with
  | [] => []
  | (k, JStr s) :: rest => (quoted k ++ ":" ++ quoted s) :: field_texts rest
  | (_, JUndefined) :: rest => field_texts rest
  | (k, _) :: rest => (quoted k ++ ":null") :: field_texts rest
  end.

Definition rest_stringify (v : JsValue) : string :=
  match v with
  | JObj props => "{" ++ String.concat "," (field_texts props) ++ "}"
  | JStr s => quoted s
  | _ => "null"
  end.

Definition import_body : JsValue := JObj [("arxiv_id", JStr "2301.00001")].

Definition feedback_body : JsValue :=
  JObj [("user_feedback_text", JStr "Great"); ("arxiv_id", JUndefined)].

Definition rest_parse (text : string) : Completion JsValue :=
  if String.eqb text (rest_stringify import_body) then Normal import_body
  else if String.eqb text (rest_stringify feedback_body)
  then Normal (JObj [("user_feedback_text", JStr "Great")])
  else Throws (JError "SyntaxError" (JStr text)).

(** The backend answers every request by 200 with [body]. *)
Definition answers_ok (body : Completion JsValue) : Request → Completion Response :=
  λ _, Normal (mkResponse true 200 "OK" body).

(** The backend answers every request by 404 with [body]. *)
Definition not_found (body : Completion JsValue) : Response :=
  mkResponse false 404 "Not Found" body.

(** The network is down. *)
Definition network_down : Request → Completion Response :=
  λ _, Throws (JError "TypeError" (JStr "Failed to fetch")).

Lemma fetchApi_sends_once_and_resolves_on_ok_witness :
  requests (answers_ok (Normal JNull))
    (fetchApi rest_parse (api fresh) "/api/metadata/P1" None)
  = [mkRequest "http://localhost:8001/api/metadata/P1" None
       [("Content-Type", "application/json")] None]
  ∧ (∀ response,
       outcome (answers_ok (Normal JNull))
         (fetchApi rest_parse (api fresh) "/api/metadata/P1" None) = Normal response
       ↔ answers_ok (Normal JNull)
           (request_of (api fresh) "/api/metadata/P1" None) = Normal response
         ∧ ok response = true)
  ∧ (∀ e, answers_ok (Normal JNull)
            (request_of (api fresh) "/api/metadata/P1" None) = Throws e →
          outcome (answers_ok (Normal JNull))
            (fetchApi rest_parse (api fresh) "/api/metadata/P1" None) = Throws e).
Proof.
  apply (fetchApi_sends_once_and_resolves_on_ok rest_parse (api fresh)
           "/api/metadata/P1" None (answers_ok (Normal JNull)) JUndefined).
  reflexivity.
Defined.

Lemma fetchApi_error_of_a_failed_response_witness :
  (∀ v detail,
     json (not_found (Normal (JObj [("detail", JStr "Paper not found")]))) = Normal v →
     Js.get v "detail" = Normal detail →
     outcome (λ _, Normal (not_found (Normal (JObj [("detail", JStr "Paper not found")]))))
       (fetchApi rest_parse (api fresh) "/api/metadata/P1" None)
     = Throws (JError "Error"
                 (if Js.truthy detail then detail
                  else JStr ("HTTP " ++ pretty 404%N ++ ": " ++ "Not Found"))))
  ∧ (∀ e,
       json (not_found (Normal (JObj [("detail", JStr "Paper not found")]))) = Throws e →
       statusText (not_found (Normal (JObj [("detail", JStr "Paper not found")])))
       ≠ EmptyString →
       outcome (λ _, Normal (not_found (Normal (JObj [("detail", JStr "Paper not found")]))))
         (fetchApi rest_parse (api fresh) "/api/metadata/P1" None)
       = Throws (JError "Error" (JStr "Not Found")))
  ∧ (json (not_found (Normal (JObj [("detail", JStr "Paper not found")]))) = Normal JNull →
     ∃ m,
       outcome (λ _, Normal (not_found (Normal (JObj [("detail", JStr "Paper not found")]))))
         (fetchApi rest_parse (api fresh) "/api/metadata/P1" None)
       = Throws (JError "TypeError" m)).
Proof.
  apply (fetchApi_error_of_a_failed_response rest_parse (api fresh)
           "/api/metadata/P1" None
           (λ _, Normal (not_found (Normal (JObj [("detail", JStr "Paper not found")]))))
           JUndefined
           (not_found (Normal (JObj [("detail", JStr "Paper not found")]))));
    reflexivity.
Defined.

(** The error of a 404 with a [detail], evaluated. *)
Lemma not_found_scenario :
  outcome (λ _, Normal (not_found (Normal (JObj [("detail", JStr "Paper not found")]))))
    (api_callables.getArxivMetadata rest_parse (api fresh) "P1")
  = Throws (JError "Error" (JStr "Paper not found"))
  ∧ outcome (λ _, Normal (not_found (Normal (JObj []))))
      (api_callables.getArxivMetadata rest_parse (api fresh) "P1")
    = Throws (JError "Error" (JStr "HTTP 404: Not Found")).
Proof. split; reflexivity. Qed.

Lemma fetchApi_rejects_an_unparsable_body_witness :
  requests network_down
    (fetchApi rest_parse (api fresh) "/api/feedback"
       (Some (mkRequestInit (Some "POST") (Some "oops")))) = []
  ∧ printed network_down
      (fetchApi rest_parse (api fresh) "/api/feedback"
         (Some (mkRequestInit (Some "POST") (Some "oops")))) = []
  ∧ outcome network_down
      (fetchApi rest_parse (api fresh) "/api/feedback"
         (Some (mkRequestInit (Some "POST") (Some "oops"))))
    = Throws (JError "SyntaxError" (JStr "oops")).
Proof.
  apply (fetchApi_rejects_an_unparsable_body rest_parse (api fresh) "/api/feedback"
           (Some "POST") "oops" network_down (JError "SyntaxError" (JStr "oops")));
    [discriminate|reflexivity].
Defined.

Lemma get_helpers_settle_as_the_body_witness :
  (outcome (answers_ok (Normal (JObj [("title", JStr "T")])))
     (api_callables.getArxivMetadata rest_parse (api fresh) "P1")
   = Normal (JObj [("title", JStr "T")])
   ∧ requests (answers_ok (Normal (JObj [("title", JStr "T")])))
       (api_callables.getArxivMetadata rest_parse (api fresh) "P1")
     = [mkRequest "http://localhost:8001/api/metadata/P1" None
          [("Content-Type", "application/json")] None])
  ∧ (outcome (answers_ok (Normal (JObj [("title", JStr "T")])))
       (api_callables.getDocument rest_parse (api fresh) "P1" "v1")
     = Normal (JObj [("title", JStr "T")])
     ∧ requests (answers_ok (Normal (JObj [("title", JStr "T")])))
         (api_callables.getDocument rest_parse (api fresh) "P1" "v1")
       = [mkRequest "http://localhost:8001/api/documents/P1/v1" None
            [("Content-Type", "application/json")] None])
  ∧ (outcome (answers_ok (Normal (JObj [("title", JStr "T")])))
       (api_callables.getImportStatus rest_parse (api fresh) "P1" "v1")
     = Normal (JObj [("title", JStr "T")])
     ∧ requests (answers_ok (Normal (JObj [("title", JStr "T")])))
         (api_callables.getImportStatus rest_parse (api fresh) "P1" "v1")
       = [mkRequest "http://localhost:8001/api/papers/status/P1/v1" None
            [("Content-Type", "application/json")] None]).
Proof.
  apply (get_helpers_settle_as_the_body rest_parse (api fresh) "P1" "v1"
           (answers_ok (Normal (JObj [("title", JStr "T")])))
           (mkResponse true 200 "OK" (Normal (JObj [("title", JStr "T")]))));
    [intros request|]; reflexivity.
Defined.

(** A 200 whose body reports an error is a resolved result. *)
Lemma requestPaperImport_resolves_with_the_body_as_it_is_witness :
  outcome (answers_ok (Normal (JObj [("error", JStr "Paper not found")])))
    (api_callables.requestArxivDocImportCallable rest_parse rest_stringify
       (api fresh) "2301.00001")
  = Normal (JObj [("error", JStr "Paper not found")])
  ∧ requests (answers_ok (Normal (JObj [("error", JStr "Paper not found")])))
      (api_callables.requestArxivDocImportCallable rest_parse rest_stringify
         (api fresh) "2301.00001")
    = [mkRequest "http://localhost:8001/api/papers/import" (Some "POST")
         [("Content-Type", "application/json")]
         (Some (rest_stringify import_body))].
Proof.
  apply (requestPaperImport_resolves_with_the_body_as_it_is rest_parse rest_stringify
           (api fresh) "2301.00001"
           (answers_ok (Normal (JObj [("error", JStr "Paper not found")])))
           (mkResponse true 200 "OK" (Normal (JObj [("error", JStr "Paper not found")])))
           import_body);
    [reflexivity|intros request; reflexivity|reflexivity].
Defined.

(** A 200 with a body that is not JSON. *)
Lemma saveFeedback_ignores_the_response_body_witness :
  outcome (answers_ok (Throws (JError "SyntaxError" (JStr "OK"))))
    (saveUserFeedbackCallable rest_parse rest_stringify (api fresh)
       (mkUserFeedback "Great" None))
  = Normal ().
Proof.
  apply (saveFeedback_ignores_the_response_body rest_parse rest_stringify (api fresh)
           "Great" None (answers_ok (Throws (JError "SyntaxError" (JStr "OK"))))
           (mkResponse true 200 "OK" (Throws (JError "SyntaxError" (JStr "OK"))))
           (JObj [("user_feedback_text", JStr "Great")]));
    [reflexivity|intros request; reflexivity|reflexivity].
Defined.

Lemma callables_reject_when_the_backend_fails_witness :
  (∃ e, outcome network_down
          (api_callables.requestArxivDocImportCallable rest_parse rest_stringify
             (api fresh) "2301.00001") = Throws e)
  ∧ (∃ e, outcome network_down
            (getLumiResponseCallable rest_parse rest_stringify (api fresh)
               (JObj []) (JObj [("query", JStr "why")]) None) = Throws e)
  ∧ (∃ e, outcome network_down
            (api_callables.getArxivMetadata rest_parse (api fresh) "2301.00001")
          = Throws e)
  ∧ (∃ e, outcome network_down
            (getPersonalSummaryCallable rest_parse rest_stringify (api fresh)
               (JObj []) [] None) = Throws e)
  ∧ (∃ e, outcome network_down
            (saveUserFeedbackCallable rest_parse rest_stringify (api fresh)
               (mkUserFeedback "Great" None)) = Throws e)
  ∧ (∃ e, outcome network_down
            (api_callables.getDocument rest_parse (api fresh) "2301.00001" "v1")
          = Throws e)
  ∧ (∃ e, outcome network_down
            (api_callables.getImportStatus rest_parse (api fresh) "2301.00001" "v1")
          = Throws e).
Proof.
  apply (callables_reject_when_the_backend_fails rest_parse rest_stringify (api fresh)
           "2301.00001" "v1" (JObj []) (JObj [("query", JStr "why")]) [] None
           (mkUserFeedback "Great" None) network_down).
  intros request. exact I.
Defined.

Lemma getDownloadUrl_drops_one_leading_slash_witness :
  getDownloadUrl (api fresh) ("/" ++ "images/fig1.png")
  = getDownloadUrl (api fresh) "images/fig1.png"
  ∧ getDownloadUrl (api fresh) "images/fig1.png"
    = Resolve "http://localhost:8001/files/images/fig1.png"
  ∧ getDownloadUrl (api fresh) ("//" ++ "images/fig1.png")
    = Resolve "http://localhost:8001/files//images/fig1.png".
Proof.
  apply (getDownloadUrl_drops_one_leading_slash (api fresh) "images/fig1.png").
  reflexivity.
Defined.

(** ** The registry and the handlers *)

(** A second call for paper X, version v1, on the connected socket. *)
Lemma connectDocumentSocket_returns_and_calls_nothing_witness :
  (connectDocumentSocket "X" "v1" sample_onUpdate (Some sample_onError) connected).1
  = Normal (length (sockets connected))
  ∧ length
      (sockets
         (connectDocumentSocket "X" "v1" sample_onUpdate (Some sample_onError) connected).2)
    = S (length (sockets connected))
  ∧ callback_calls
      (output
         (connectDocumentSocket "X" "v1" sample_onUpdate (Some sample_onError) connected).2)
    = callback_calls (output connected).
Proof.
  apply (connectDocumentSocket_returns_and_calls_nothing connected "X" "v1"
           sample_onUpdate (Some sample_onError)).
  reflexivity.
Defined.


Lemma connect_leaves_the_other_keys_alone_witness :
  websockets (api (connectDocumentSocket "Y" "v2" sample_onUpdate None connected).2)
    !! "X_v1"
  = websockets (api connected) !! "X_v1"
  ∧ sockets (connectDocumentSocket "Y" "v2" sample_onUpdate None connected).2 !! 0
    = Some socket_X.
Proof.
  apply (connect_leaves_the_other_keys_alone connected "Y" "v2" sample_onUpdate None
           "X_v1" 0 socket_X).
  - discriminate.
  - reflexivity.
  - discriminate.
Defined.

(** The state that three calls for one key reach when the close event of
    the first socket comes before the third call: socket 1 is connecting
    and unregistered. *)
Definition orphaned : World :=
  run sample_parse
    [Connect "X" "v1" sample_onUpdate (Some sample_onError);
     Connect "X" "v1" sample_onUpdate (Some sample_onError);
     Deliver (connection_closed 0 None (mkCloseEvent 1000 EmptyString true));
     Connect "X" "v1" sample_onUpdate (Some sample_onError)] fresh.

Lemma closeAllWebSockets_misses_unregistered_sockets_witness :
  sockets (closeAllWebSockets orphaned).2 !! 1 = sockets orphaned !! 1
  ∧ output (closeAllWebSockets orphaned).2 = output orphaned.
Proof.
  apply (closeAllWebSockets_misses_unregistered_sockets orphaned 1).
  intros key Hreg. apply elem_of_map_to_list in Hreg.
  change (map_to_list (websockets (api orphaned))) with [("X_v1", 2)] in Hreg.
  apply list_elem_of_singleton in Hreg. discriminate.
Defined.

(** After [closeAllWebSockets] the orphaned socket is still connecting. *)
Lemma orphaned_socket_scenario :
  readyState <$> sockets (closeAllWebSockets orphaned).2 = [CLOSED; CONNECTING; CLOSING]
  ∧ map_to_list (websockets (api (closeAllWebSockets orphaned).2)) = [].
Proof. split; reflexivity. Qed.

(** A malformed frame, a data frame and a status frame, in this order. *)
Lemma frames_are_delivered_in_order_witness :
  sockets (run sample_parse
             ((λ raw, Deliver (message_event 0 raw))
                <$> ["{"; frame_for_Y; frame_without_data]) connected)
  = sockets connected
  ∧ api (run sample_parse
           ((λ raw, Deliver (message_event 0 raw))
              <$> ["{"; frame_for_Y; frame_without_data]) connected)
    = api connected
  ∧ callback_calls
      (output (run sample_parse
                 ((λ raw, Deliver (message_event 0 raw))
                    <$> ["{"; frame_for_Y; frame_without_data]) connected))
    = (callback_calls (output connected)
         ++ [onUpdate_call sample_onUpdate (JObj [("title", JStr "T")]);
             onUpdate_call sample_onUpdate message_without_data])%list.
Proof.
  apply (frames_are_delivered_in_order sample_parse connected 0 socket_X
           ["{"; frame_for_Y; frame_without_data]); reflexivity.
Defined.

(** A consumer whose [onUpdate] always throws. *)
Definition throwing_onUpdate : Callback := mkCallback "onUpdate" (λ _, true).

Definition connected_to_thrower : World :=
  run sample_parse
    [Connect "X" "v1" throwing_onUpdate None; Deliver (open_event 0)] fresh.

Definition socket_of_thrower : WebSocket :=
  mkWebSocket "ws://localhost:8001/ws/X/v1" OPEN
    (mkClosure "X" "v1" "X_v1" throwing_onUpdate None).

Lemma throwing_onUpdate_is_reported_as_a_parse_failure_witness :
  ∃ before e,
    dispatch sample_parse (message_event 0 frame_without_data) connected_to_thrower
    = (Normal (),
       mkWorld (api connected_to_thrower) (sockets connected_to_thrower)
         (output connected_to_thrower ++ before
            ++ [onUpdate_call (onUpdate (handlers socket_of_thrower))
                  (Js.or JUndefined message_without_data);
                console_error
                  ("[WebSocket] Failed to parse message for "
                     ++ arxivId (handlers socket_of_thrower) ++ " v"
                     ++ version (handlers socket_of_thrower) ++ ":")
                  [("error", e); ("raw_data", JStr frame_without_data)]]))
    ∧ Forall is_console before.
Proof.
  apply (throwing_onUpdate_is_reported_as_a_parse_failure sample_parse
           connected_to_thrower 0 socket_of_thrower frame_without_data
           message_without_data JUndefined); reflexivity.
Defined.

Lemma truthy_data_is_handed_over_alone_witness :
  ∃ before after,
    output (perform sample_parse (Deliver (message_event 0 frame_for_Y)) connected)
    = (output connected ++ before
         ++ [onUpdate_call (onUpdate (handlers socket_X)) (JObj [("title", JStr "T")])]
         ++ after)%list
    ∧ Forall is_console before ∧ Forall is_console after.
Proof.
  apply (truthy_data_is_handed_over_alone sample_parse connected 0 socket_X
           frame_for_Y message_for_Y (JObj [("title", JStr "T")])); reflexivity.
Defined.

(** The connection of the connected socket fails. *)
Lemma connection_end_unregisters_and_reports_failure_once_witness :
  websockets
    (api (perform sample_parse
            (Deliver (connection_closed 0 (Some (JObj [("type", JStr "error")]))
                        (mkCloseEvent 1006 EmptyString false))) connected))
  = delete (wsKey (handlers socket_X)) (websockets (api connected))
  ∧ sockets
      (perform sample_parse
         (Deliver (connection_closed 0 (Some (JObj [("type", JStr "error")]))
                     (mkCloseEvent 1006 EmptyString false))) connected) !! 0
    = Some (mkWebSocket (url socket_X) CLOSED (handlers socket_X))
  ∧ callback_calls
      (output
         (perform sample_parse
            (Deliver (connection_closed 0 (Some (JObj [("type", JStr "error")]))
                        (mkCloseEvent 1006 EmptyString false))) connected))
    = (callback_calls (output connected)
         ++ [onError_call sample_onError (JObj [("type", JStr "error")])])%list.
Proof.
  apply (connection_end_unregisters_and_reports_failure_once sample_parse connected 0
           socket_X (Some (JObj [("type", JStr "error")]))
           (mkCloseEvent 1006 EmptyString false)); [reflexivity|discriminate].
Defined.

(** ** The history and the map *)

(** The [paperId] of the one paper of the sample history. *)
Definition sample_paperId (title : string) : option string :=
  if String.eqb title "Paper zero" then Some "P0" else None.

Lemma setCurrentCollection_loads_the_history_witness :
  paperToMetadataMap (setCurrentCollection sample_paperId None sample_home).1 !! "P0"
  = Some "Paper zero".
Proof.
  apply (setCurrentCollection_loads_the_history sample_paperId None sample_home
           (mkPaperData (Some "Paper zero")) "Paper zero" "P0" "Paper zero").
  - apply list_elem_of_here.
  - reflexivity.
  - reflexivity.
  - discriminate.
  - reflexivity.
Defined.
